(** * planet.clients.data: the Data API client

    A shallow embedding of [planet/clients/data.py] and the properties of
    its request building, error translation and result collection.

    Python values are an inductive type, exceptions are an inductive type,
    and a coroutine of the client is a function from the state of the
    world (the remote service plus the list of requests sent so far) to an
    outcome (a raised exception or a returned value) and a new state. *)

From Stdlib Require Import String Ascii List ZArith Lia Bool.
Import ListNotations.
Open Scope string_scope.

Set Implicit Arguments.
Set Warnings "-register-all".

(** ** Python values and exceptions *)

Module Py.

(** The values [json.loads] and [resp.json()] produce, and the ones the
    client builds.  A [dict] is kept as the list of its entries in insertion
    order: the order is what [keys()], [values()] and iteration follow. The
    decoder's keys are strings. *)
Inductive value : Type :=
| VNone
| VBool (b : bool)
| VInt (z : Z)
| VFloat (literal : string)
| VStr (s : string)
| VList (l : list value)
| VDict (d : list (string * value)).

(** The exceptions that can leave the client: the two kinds of the transport's
    taxonomy the client translates, the rest of that taxonomy, and the
    built-in ones that subscripting, iterating and decoding raise. *)
Inductive exn : Type :=
| BadQuery (message : value)
| MissingResource (message : value)
| APIException (kind : string) (message : value)
| NotImplementedError
| JSONDecodeError (doc : string)
| KeyError (key : value)
| IndexError
| TypeError
| AttributeError
| StopIteration
| StopAsyncIteration
| RuntimeError.

(** What evaluating an expression or awaiting a coroutine ends in. *)
Inductive outcome (A : Type) : Type :=
| Raised (e : exn)
| Returned (a : A).
Arguments Raised {A} e.
Arguments Returned {A} a.

Definition obind {A B} (o : outcome A) (k : A -> outcome B) : outcome B :=
  match o with
  | Raised e => Raised e
  | Returned a => k a
  end.

(** [d[k]] on the entries of a dict: the first entry with that key. *)
Fixpoint lookup (k : string) (d : list (string * value)) : option value :=
  match d with
  | [] => None
  | (k', v) :: rest => if String.eqb k k' then Some v else lookup k rest
  end.

(** [v[k]] for a string [k]. Only a dict can be subscripted by a string: a
    list or a str wants an integer index, the other values have no
    [__getitem__]; both are a [TypeError]. *)
Definition getitem_str (v : value) (k : string) : outcome value :=
  match v with
  | VDict d =>
      match lookup k d with
      | Some x => Returned x
      | None => Raised (KeyError (VStr k))
      end
  | _ => Raised TypeError
  end.

(** A str is kept as the bytes of its UTF-8 encoding, and its characters
    are its code points: a byte that leads, with the continuation bytes
    (10xxxxxx) that follow it. *)
Definition continuation (c : ascii) : bool :=
  match c with
  | Ascii _ _ _ _ _ _ false true => true
  | _ => false
  end.

(** The continuation bytes a text starts with. *)
Fixpoint continuation_prefix (s : string) : string :=
  match s with
  | EmptyString => EmptyString
  | String c rest =>
      if continuation c then String c (continuation_prefix rest)
      else EmptyString
  end.

(** The continuation bytes a text starts with, and the characters after
    them. *)
Fixpoint scan (s : string) : string * list string :=
  match s with
  | EmptyString => (EmptyString, [])
  | String c rest =>
      let (k, cs) := scan rest in
      if continuation c then (String c k, cs)
      else (EmptyString, String c k :: cs)
  end.

(** What a character is: a leading byte and continuation bytes. *)
Fixpoint all_continuation (s : string) : bool :=
  match s with
  | EmptyString => true
  | String c rest => continuation c && all_continuation rest
  end.

Definition code_point (c : string) : bool :=
  match c with
  | EmptyString => false
  | String b rest => negb (continuation b) && all_continuation rest
  end.

(** The characters of a str, first to last. (The text of a str starts with
    a leading byte; bytes that come before the first one are kept
    together.) *)
Definition code_points (s : string) : list string :=
  let (k, cs) := scan s in
  match k with
  | EmptyString => cs
  | _ => k :: cs
  end.

(** [v[0]]. On a dict, [0] is a key like any other, and a decoded dict has
    string keys only; on a str it is the first character. *)
Definition getitem_0 (v : value) : outcome value :=
  match v with
  | VDict _ => Raised (KeyError (VInt 0))
  | VList [] => Raised IndexError
  | VList (x :: _) => Returned x
  | VStr EmptyString => Raised IndexError
  | VStr (String c rest) =>
      Returned (VStr (String c (continuation_prefix rest)))
  | _ => Raised TypeError
  end.

(** [v.keys()] and [v.values()]: methods of dict only. *)
Definition keys (v : value) : outcome (list string) :=
  match v with
  | VDict d => Returned (map fst d)
  | _ => Raised AttributeError
  end.

Definition values (v : value) : outcome (list value) :=
  match v with
  | VDict d => Returned (map snd d)
  | _ => Raised AttributeError
  end.

(** [next(iter(ks))] *)
Definition next_iter {A} (ks : list A) : outcome A :=
  match ks with
  | [] => Raised StopIteration
  | k :: _ => Returned k
  end.

(** The characters of a str as values: each is a str of one character. *)
Definition chars (s : string) : list value := map VStr (code_points s).

(** The elements [for a in v] goes through: the keys of a dict, the
    elements of a list, the characters of a str; nothing else among the
    decoded values is iterable. *)
Definition iterate (v : value) : outcome (list value) :=
  match v with
  | VDict d => Returned (map (fun kv => VStr (fst kv)) d)
  | VList l => Returned l
  | VStr s => Returned (chars s)
  | _ => Raised TypeError
  end.

End Py.
Import Py.

Declare Scope outcome_scope.
Delimit Scope outcome_scope with outcome.
Notation "x <- c ;; k" := (obind c (fun x => k))
  (at level 61, c at next level, right associativity) : outcome_scope.
Open Scope outcome_scope.

(** ** The collaborators of the client *)

(** [json.loads] of the standard library, on a str: the decoded value, or
    nothing for a text that is not JSON. *)
Class JsonLib : Type := {
  json_loads : string -> option value
}.

(** Modelled from the spec: the request handle of [_BaseClient._request]
    (planet/clients/_base.py lies outside this development), "a
    request-builder primitive (method, URL, optional JSON body -> opaque
    request handle)". *)
Record Request : Type := {
  url : string;
  method : string;
  data : option value
}.

(** Modelled from the spec: the session behind [_BaseClient._do_request],
    "an async perform-request primitive that returns a decoded-JSON-capable
    response object or raises one of a fixed exception taxonomy". [Net] is
    the state of the remote service as the session sees it. *)
Class Session : Type := {
  Net : Type;
  Response : Type;
  perform : Request -> Net -> outcome Response * Net;
  response_json : Response -> outcome value
}.

(** Modelled from the spec: the domain models of planet/models.py (outside
    this development): "constructors Item(record) and Asset(record)
    that wrap raw server JSON records; treated as opaque value
    constructors", the attributes the client reads from them, and a decoded
    page, "a decoded batch of Items plus an optional next-page reference". *)
Class Models `{Session} : Type := {
  Item : Type;
  Asset : Type;
  mkAsset : value -> Asset;
  item_type : Item -> string;
  item_id : Item -> string;
  activate_url : Asset -> string;
  decode_page : Response -> outcome (list Item * option string);
  follow : Request -> string -> Request
}.

(** ** Coroutines *)

Section Client.

Context `{JsonLib} `{Models}.

(** The world a coroutine runs in: the remote service, and the requests
    performed so far, oldest first. *)
Record World : Type := {
  net : Net;
  sent : list Request
}.

Definition coro (A : Type) : Type := World -> outcome A * World.

(** A [StopIteration] that reaches the boundary of a coroutine leaves it as
    a [RuntimeError]. *)
Definition leave {A} (r : outcome A * World) : outcome A * World :=
  match r with
  | (Raised StopIteration, w) => (Raised RuntimeError, w)
  | _ => r
  end.

Definition coroutine {A} (body : coro A) : coro A :=
  fun w => leave (body w).

(** Modelled from the spec: [_BaseClient._request], the "request-builder
    primitive" (see [Request]): [self._request(url, method=m, data=d)]. *)
Definition _request (u : string) (m : string) (d : option value) : Request :=
  {| url := u; method := m; data := d |}.

(** Modelled from the spec: [_BaseClient._do_request], the "perform request
    primitive" (see [Session]). Performing a request is the only thing that
    touches the world; the request is recorded in [sent]. *)
Definition _do_request (req : Request) : coro Response :=
  fun w =>
    let (r, n) := perform req (net w) in
    (r, {| net := n; sent := sent w ++ [req] |}).

(** [json.loads(x)] for the values of the model: a str is decoded, and a
    str that is not JSON is a [JSONDecodeError]; None, a boolean, a number,
    a list and a dict are a [TypeError]. ([json.loads] decodes bytes and
    bytearray as well; they are not among the values of the model, which are
    the ones a JSON decoder yields.) *)
Definition loads (x : value) : outcome value :=
  match x with
  | VStr s =>
      match json_loads s with
      | Some v => Returned v
      | None => Raised (JSONDecodeError s)
      end
  | _ => Raised TypeError
  end.

(** ** The paginated iterator *)

(** Modelled from the spec: the iterator [Items] of planet/models.py, a
    "state machine with two states: FETCHING (has a pending or to-be-fetched
    page reference) and EXHAUSTED (no next page, or limit reached)", whose
    "initial state holds the initial search request and zero items yielded".
    [page] holds the items of the current page not yielded yet. *)
Inductive phase : Type := FETCHING | EXHAUSTED.

Record Items : Type := {
  state : phase;
  page : list Item;
  next_page : option Request;
  yielded : nat;
  limit : option nat
}.

(** Modelled from the spec: [Items(req, do_request_fcn, limit=lim)], the
    "initial state" of the iterator; the limit is "non-negative or unset,
    meaning unlimited". *)
Definition Items_init (req : Request) (lim : option nat) : Items :=
  {| state := FETCHING; page := []; next_page := Some req;
     yielded := 0; limit := lim |}.

(** Modelled from the spec: "yielded count has reached the caller's
    limit". *)
Definition limit_reached (it : Items) : bool :=
  match limit it with
  | Some n => Nat.leb n (yielded it)
  | None => false
  end.

(** Modelled from the spec: the "transition to EXHAUSTED". *)
Definition exhausted (it : Items) : Items :=
  {| state := EXHAUSTED; page := page it; next_page := next_page it;
     yielded := yielded it; limit := limit it |}.

(** Modelled from the spec: what one transition of [Items] does: it yields
    an item, it has fetched a page and continues, or it ends the sequence. *)
Inductive pull : Type :=
| Yield (i : Item) (it : Items)
| Fetched (it : Items)
| Stop (it : Items).

(** Modelled from the spec: the transition of [Items] on a "produce next
    item" request: "if the current page still has unyielded items, yield
    the next one (increment yielded count); if the current page is exhausted
    but a next-page reference exists, perform one async fetch-and-parse to
    obtain the next page, then continue; if no next-page reference exists,
    or if yielded count has reached the caller's limit, transition to
    EXHAUSTED and end the sequence". An iterator whose limit is reached is
    EXHAUSTED, so the limit is looked at first. [do_request_fcn] is the
    fetch function the client hands over. *)
Definition Items_step (do_request_fcn : Request -> coro Response)
    (it : Items) : coro pull :=
  fun w =>
    match state it with
    | EXHAUSTED => (Returned (Stop it), w)
    | FETCHING =>
        if limit_reached it then (Returned (Stop (exhausted it)), w)
        else
          match page it with
          | i :: rest =>
              (Returned (Yield i {| state := FETCHING; page := rest;
                                    next_page := next_page it;
                                    yielded := S (yielded it);
                                    limit := limit it |}), w)
          | [] =>
              match next_page it with
              | None => (Returned (Stop (exhausted it)), w)
              | Some req =>
                  match do_request_fcn req w with
                  | (Raised e, w') => (Raised e, w')
                  | (Returned resp, w') =>
                      match decode_page resp with
                      | Raised e => (Raised e, w')
                      | Returned (items, next) =>
                          (Returned (Fetched
                             {| state := FETCHING; page := items;
                                next_page := option_map (follow req) next;
                                yielded := yielded it;
                                limit := limit it |}), w')
                      end
                  end
              end
          end
    end.

(** [[i async for i in items]], the comprehension [quick_search] returns:
    pull until the sequence ends. A [StopAsyncIteration] out of a pull is
    the end of the sequence for [async for], whoever raised it; every other
    exception leaves the loop. Nothing bounds the number of pages a service
    hands out, so the loop takes fuel, one unit a transition; [None] is a
    loop that has not ended yet. *)
Fixpoint collect (fuel : nat) (do_request_fcn : Request -> coro Response)
    (it : Items) (w : World) : option (outcome (list Item) * World) :=
  match fuel with
  | O => None
  | S fuel' =>
      match Items_step do_request_fcn it w with
      | (Raised StopAsyncIteration, w') => Some (Returned [], w')
      | (Raised e, w') => Some (Raised e, w')
      | (Returned (Yield i it'), w') =>
          match collect fuel' do_request_fcn it' w' with
          | Some (Returned l, w'') => Some (Returned (i :: l), w'')
          | r => r
          end
      | (Returned (Fetched it'), w') => collect fuel' do_request_fcn it' w'
      | (Returned (Stop _), w') => Some (Returned [], w')
      end
  end.

(** ** planet/clients/data.py *)

Definition DATA_PATH : string := "data/v1/".

Definition SORT_ORDER : list string :=
  ["acquired asc"; "acquired desc"; "published asc"; "published desc"].

(** [self.base_url] *)
Variable base_url : string.

Definition _data_url : string := base_url ++ DATA_PATH.

(** The handler of [except exceptions.BadQuery as ex] in
    [_request_and_parse], up to the value of [msg]. *)
Definition bad_query_msg (message : value) : outcome value :=
  msg_json <- loads message ;;
  (* get first error field *)
  fields <- getitem_str msg_json "field" ;;
  ks <- keys fields ;;
  field <- next_iter ks ;;
  fields' <- getitem_str msg_json "field" ;;
  errs <- getitem_str fields' field ;;
  err <- getitem_0 errs ;;
  getitem_str err "message".

(** The closure [_request_and_parse] of [quick_search]; its arguments are
    the ones of [_do_request], which it passes on. *)
Definition _request_and_parse (req : Request) : coro Response :=
  coroutine (fun w =>
    match _do_request req w with
    | (Raised (BadQuery message), w') =>
        (msg <- bad_query_msg message ;; Raised (BadQuery msg), w')
    | r => r
    end).

(** [search_body] and [req] of [quick_search]. *)
Definition search_body (filt item_types : value) : value :=
  VDict [("filter", filt); ("item_types", item_types)].

Definition quick_search_request (filt item_types : value) : Request :=
  _request (_data_url ++ "quick-search") "POST"
           (Some (search_body filt item_types)).

(** [quick_search]. The arguments [name], [page_size], [sort] and [strict]
    are part of the signature; the body never reads them. *)
Definition quick_search (filt item_types : value) (name : option string)
    (page_size : option Z) (sort : option string) (strict : option bool)
    (lim : option nat) (fuel : nat) (w : World)
    : option (outcome (list Item) * World) :=
  let req := quick_search_request filt item_types in
  let items := Items_init req lim in
  (* TODO return Items instead of list *)
  option_map leave (collect fuel _request_and_parse items w).

(** The handler of [except exceptions.MissingResource as ex] in
    [get_assets], up to the value of [msg]. *)
Definition get_assets_msg (message : value) : outcome value :=
  msg_json <- loads message ;;
  general <- getitem_str msg_json "general" ;;
  first <- getitem_0 general ;;
  getitem_str first "message".

(** [url] and [req] of [get_assets]. *)
Definition get_assets_request (item : Item) : Request :=
  _request (_data_url ++ "item-types/" ++ item_type item
                      ++ "/items/" ++ item_id item) "GET" None.

Definition get_assets (item : Item) : coro (list Asset) :=
  coroutine (fun w =>
    match _do_request (get_assets_request item) w with
    | (Raised (MissingResource message), w') =>
        (msg <- get_assets_msg message ;; Raised (MissingResource msg), w')
    | (Raised e, w') => (Raised e, w')
    | (Returned resp, w') =>
        (assets <- response_json resp ;;
         vs <- values assets ;;
         Returned (map mkAsset vs), w')
    end).

Definition get_asset (item : Item) (asset_type : string) : coro Asset :=
  coroutine (fun w => (Raised NotImplementedError, w)).

(** The handler of [except exceptions.MissingResource as ex] in [activate],
    up to the value of [msg]. *)
Definition activate_msg (message : value) : outcome value :=
  msg_json <- loads message ;;
  general <- getitem_str msg_json "general" ;;
  getitem_str general "message".

(** [url] and [req] of [activate]. *)
Definition activate_request (asset : Asset) : Request :=
  _request (activate_url asset) "GET" None.

Definition activate (asset : Asset) : coro (list Asset) :=
  coroutine (fun w =>
    match _do_request (activate_request asset) w with
    | (Raised (MissingResource message), w') =>
        (msg <- activate_msg message ;; Raised (MissingResource msg), w')
    | (Raised e, w') => (Raised e, w')
    | (Returned resp, w') =>
        (assets <- response_json resp ;;
         elts <- iterate assets ;;
         Returned (map mkAsset elts), w')
    end).

Definition download (asset : Asset) : coro string :=
  coroutine (fun w => (Raised NotImplementedError, w)).

(** ** Describing what the service does *)

(** The limit, if any, is above [k]: an iterator that has yielded [k] items
    goes on. *)
Definition under_limit (lim : option nat) (k : nat) : Prop :=
  match lim with
  | Some n => k < n
  | None => True
  end.

(** The limit, if any, is at least [k]. *)
Definition within_limit (lim : option nat) (k : nat) : Prop :=
  match lim with
  | Some n => k <= n
  | None => True
  end.

(** [served req w pages req' w']: from the world [w] on, the service
    answers [req] and the requests that follow its links with [pages], one
    after the other, each page linking to a next one; [req'] is the request
    for the page after them and [w'] the world it will be performed in. *)
Inductive served : Request -> World -> list (list Item) -> Request -> World
    -> Prop :=
| served_none req w : served req w [] req w
| served_page req w resp w1 items link pages req' w' :
    _do_request req w = (Returned resp, w1) ->
    decode_page resp = Returned (items, Some link) ->
    served (follow req link) w1 pages req' w' ->
    served req w (items :: pages) req' w'.

(** [chain req w pgs]: the whole result set behind [req] from the world [w]
    on: the pages the service hands out, each with the world right after its
    fetch, up to the page without a link to a next one. *)
Inductive chain : Request -> World -> list (list Item * World) -> Prop :=
| chain_last req w resp w1 items :
    _do_request req w = (Returned resp, w1) ->
    decode_page resp = Returned (items, None) ->
    chain req w [(items, w1)]
| chain_next req w resp w1 items link pgs :
    _do_request req w = (Returned resp, w1) ->
    decode_page resp = Returned (items, Some link) ->
    chain (follow req link) w1 pgs ->
    chain req w ((items, w1) :: pgs).

(** The world in which a reader that still needs [need] items stops: a page
    is fetched only while items are needed. *)
Fixpoint stop_world (need : nat) (w : World) (pgs : list (list Item * World))
    : World :=
  match pgs with
  | [] => w
  | (items, w1) :: rest =>
      match need with
      | O => w
      | S _ => stop_world (need - length items) w1 rest
      end
  end.

(** The number of pages such a reader fetches. *)
Fixpoint fetches (need : nat) (pages : list (list Item)) : nat :=
  match pages with
  | [] => 0
  | items :: rest =>
      match need with
      | O => 0
      | S _ => S (fetches (need - length items) rest)
      end
  end.

(** An iterator in the middle of its work, and the loop over it ending in
    [r] for some amount of fuel. *)
Definition reading (buf : list Item) (nx : option Request) (y : nat)
    (lim : option nat) : Items :=
  {| state := FETCHING; page := buf; next_page := nx;
     yielded := y; limit := lim |}.

Definition collects (f : Request -> coro Response) (it : Items) (w : World)
    (r : outcome (list Item) * World) : Prop :=
  exists fuel, collect fuel f it w = Some r.

Definition prepend (xs : list Item) (r : outcome (list Item) * World)
    : outcome (list Item) * World :=
  match r with
  | (Returned l, w) => (Returned (xs ++ l)%list, w)
  | _ => r
  end.

(** The shapes the handlers expect of an error body [s], with the message
    [m] they find in it: for a bad query an object whose [field] object
    starts with a list that starts with an object with a [message]; for a
    missing resource of [get_assets] an object with a list under [general]
    that starts with an object with a [message]; for a missing resource of
    [activate] an object with an object under [general] that has a
    [message]. *)
Definition bad_query_shape (s : string) (m : value) : Prop :=
  exists d k first more rest,
    json_loads s = Some (VDict d) /\
    lookup "field" d
    = Some (VDict ((k, VList (VDict first :: more)) :: rest)) /\
    lookup "message" first = Some m.

Definition listing_shape (s : string) (m : value) : Prop :=
  exists d first more,
    json_loads s = Some (VDict d) /\
    lookup "general" d = Some (VList (VDict first :: more)) /\
    lookup "message" first = Some m.

Definition activation_shape (s : string) (m : value) : Prop :=
  exists d g,
    json_loads s = Some (VDict d) /\
    lookup "general" d = Some (VDict g) /\
    lookup "message" g = Some m.

Definition is_object (v : value) : bool :=
  match v with
  | VDict _ => true
  | _ => false
  end.

(** The values that cannot be subscripted at all. *)
Definition is_scalar (v : value) : bool :=
  match v with
  | VNone | VBool _ | VInt _ | VFloat _ => true
  | _ => false
  end.

(** The error bodies that do not have the expected shape, with the error
    reading them ends in. For a bad query: a text that is not JSON, or a
    body without [field], be it an object or not. *)
Inductive bad_query_malformed (s : string) : exn -> Prop :=
| bq_not_json :
    json_loads s = None ->
    bad_query_malformed s (JSONDecodeError s)
| bq_not_object v :
    json_loads s = Some v ->
    is_object v = false ->
    bad_query_malformed s TypeError
| bq_no_field d :
    json_loads s = Some (VDict d) ->
    lookup "field" d = None ->
    bad_query_malformed s (KeyError (VStr "field")).

(** For a missing resource of [get_assets]: a text that is not JSON, a body
    without [general], or a [general] that is not a list that starts with an
    object with a [message]. *)
Inductive listing_malformed (s : string) : exn -> Prop :=
| ls_not_json :
    json_loads s = None ->
    listing_malformed s (JSONDecodeError s)
| ls_not_object v :
    json_loads s = Some v ->
    is_object v = false ->
    listing_malformed s TypeError
| ls_no_general d :
    json_loads s = Some (VDict d) ->
    lookup "general" d = None ->
    listing_malformed s (KeyError (VStr "general"))
| ls_general_object d g :
    json_loads s = Some (VDict d) ->
    lookup "general" d = Some (VDict g) ->
    listing_malformed s (KeyError (VInt 0))
| ls_general_scalar d g :
    json_loads s = Some (VDict d) ->
    lookup "general" d = Some g ->
    is_scalar g = true ->
    listing_malformed s TypeError
| ls_general_empty d :
    json_loads s = Some (VDict d) ->
    lookup "general" d = Some (VList []) ->
    listing_malformed s IndexError
| ls_general_empty_str d :
    json_loads s = Some (VDict d) ->
    lookup "general" d = Some (VStr "") ->
    listing_malformed s IndexError
| ls_general_str d c rest :
    json_loads s = Some (VDict d) ->
    lookup "general" d = Some (VStr (String c rest)) ->
    listing_malformed s TypeError
| ls_first_not_object d x more :
    json_loads s = Some (VDict d) ->
    lookup "general" d = Some (VList (x :: more)) ->
    is_object x = false ->
    listing_malformed s TypeError
| ls_no_message d first more :
    json_loads s = Some (VDict d) ->
    lookup "general" d = Some (VList (VDict first :: more)) ->
    lookup "message" first = None ->
    listing_malformed s (KeyError (VStr "message")).

(** For a missing resource of [activate]: a text that is not JSON, a body
    without [general], or a [general] that is not an object with a
    [message]. *)
Inductive activation_malformed (s : string) : exn -> Prop :=
| ac_not_json :
    json_loads s = None ->
    activation_malformed s (JSONDecodeError s)
| ac_not_object v :
    json_loads s = Some v ->
    is_object v = false ->
    activation_malformed s TypeError
| ac_no_general d :
    json_loads s = Some (VDict d) ->
    lookup "general" d = None ->
    activation_malformed s (KeyError (VStr "general"))
| ac_general_not_object d g :
    json_loads s = Some (VDict d) ->
    lookup "general" d = Some g ->
    is_object g = false ->
    activation_malformed s TypeError
| ac_no_message d g :
    json_loads s = Some (VDict d) ->
    lookup "general" d = Some (VDict g) ->
    lookup "message" g = None ->
    activation_malformed s (KeyError (VStr "message")).

(** ** The rest of the error table *)

Definition is_bad_query (e : exn) : bool :=
  match e with
  | BadQuery _ => true
  | _ => false
  end.

Definition is_missing_resource (e : exn) : bool :=
  match e with
  | MissingResource _ => true
  | _ => false
  end.

(** The values [v] for which [v[0]['message']] fails, with the error it
    fails with. *)
Inductive no_first_message : value -> exn -> Prop :=
| nfm_object g :
    no_first_message (VDict g) (KeyError (VInt 0))
| nfm_scalar v :
    is_scalar v = true ->
    no_first_message v TypeError
| nfm_empty :
    no_first_message (VList []) IndexError
| nfm_empty_str :
    no_first_message (VStr "") IndexError
| nfm_str c rest :
    no_first_message (VStr (String c rest)) TypeError
| nfm_not_object x more :
    is_object x = false ->
    no_first_message (VList (x :: more)) TypeError
| nfm_no_message first more :
    lookup "message" first = None ->
    no_first_message (VList (VDict first :: more))
                     (KeyError (VStr "message")).

(** The bad-query bodies that have a [field] and still cannot be read, with
    the error [_request_and_parse] ends in: a [field] that is not an object
    has no [keys]; a [field] without keys has no first one, and the
    [StopIteration] of [next] leaves the coroutine as a [RuntimeError]; and
    the value under the first key may have no first message. *)
Inductive bad_query_unreadable (s : string) : exn -> Prop :=
| bqu_field_not_object d f :
    json_loads s = Some (VDict d) ->
    lookup "field" d = Some f ->
    is_object f = false ->
    bad_query_unreadable s AttributeError
| bqu_field_empty d :
    json_loads s = Some (VDict d) ->
    lookup "field" d = Some (VDict []) ->
    bad_query_unreadable s RuntimeError
| bqu_errors d k errs rest e :
    json_loads s = Some (VDict d) ->
    lookup "field" d = Some (VDict ((k, errs) :: rest)) ->
    no_first_message errs e ->
    bad_query_unreadable s e.

End Client.


(** ** A scripted service *)

(** A service that answers from a script, for running the client on
    examples: the state of the net is the list of replies still to give, a
    response is its decoded body, and a page is a dict with its items under
    [features] and the link to the next page, if any, under [next]. *)
Module Mock.

Definition answer (req : Request) (script : list (outcome value))
    : outcome value * list (outcome value) :=
  match script with
  | [] => (Raised (APIException "ServerError" VNone), [])
  | reply :: rest => (reply, rest)
  end.

#[export] Instance session : Session :=
  {| Net := list (outcome value);
     Response := value;
     perform := answer;
     response_json := fun body => Returned body |}.

Definition page_of (body : value)
    : outcome (list value * option string) :=
  features <- getitem_str body "features" ;;
  match features with
  | VList items =>
      match getitem_str body "next" with
      | Returned (VStr link) => Returned (items, Some link)
      | _ => Returned (items, None)
      end
  | _ => Raised TypeError
  end.

Definition attribute (k : string) (record : value) : string :=
  match getitem_str record k with
  | Returned (VStr s) => s
  | _ => ""
  end.

#[export] Instance models : Models :=
  {| Item := value;
     Asset := value;
     mkAsset := fun record => record;
     item_type := attribute "type";
     item_id := attribute "id";
     activate_url := attribute "activate_url";
     decode_page := page_of;
     follow := fun req link =>
       {| url := link; method := method req; data := data req |} |}.

(** A decoder that knows the documents of a table by name. *)
Definition json (docs : list (string * value)) : JsonLib :=
  {| json_loads := fun s => lookup s docs |}.

Definition page_body (items : list value) (next : option string) : value :=
  VDict (("features", VList items) ::
         match next with
         | Some link => [("next", VStr link)]
         | None => []
         end).

Definition world (script : list (outcome value)) : World :=
  {| net := script; sent := [] |}.

End Mock.

(** ** Example data *)

Module Examples.

Import Mock.

Definition base : string := "https://api.planet.com/".

Definition scene (n : Z) : value :=
  VDict [("id", VInt n); ("type", VStr "PSScene")].

Definition filt : value :=
  VDict [("type", VStr "DateRangeFilter"); ("field_name", VStr "acquired")].

Definition item_types : value := VList [VStr "PSScene"].

(** Three pages, of 3, 3 and 2 items. *)
Definition page1 : list value := [scene 1; scene 2; scene 3].
Definition page2 : list value := [scene 4; scene 5; scene 6].
Definition page3 : list value := [scene 7; scene 8].

Definition three_pages : list (outcome value) :=
  [Returned (page_body page1 (Some "page-2"));
   Returned (page_body page2 (Some "page-3"));
   Returned (page_body page3 None)].

Definition first_request : Request :=
  {| url := "https://api.planet.com/data/v1/quick-search";
     method := "POST";
     data := Some (VDict [("filter", filt); ("item_types", item_types)]) |}.

Definition second_request : Request :=
  {| url := "page-2";
     method := "POST";
     data := Some (VDict [("filter", filt); ("item_types", item_types)]) |}.

(** The error bodies of the examples, by the name the decoder knows them
    under. *)
Definition geometry_error : value :=
  VDict [("field",
          VDict [("geometry",
                  VList [VDict [("message", VStr "invalid coordinates")]])])].

Definition no_such_item : value :=
  VDict [("general", VList [VDict [("message", VStr "no such item")]])].

Definition no_such_asset : value :=
  VDict [("general", VDict [("message", VStr "no such asset")])].

Definition no_detail : value :=
  VDict [("error", VStr "gateway timeout")].

Definition docs : list (string * value) :=
  [("geometry error", geometry_error);
   ("no such item", no_such_item);
   ("no such asset", no_such_asset);
   ("no detail", no_detail)].

#[export] Instance decoder : JsonLib := json docs.

Definition an_item : value :=
  VDict [("id", VStr "20210101_000000_0f15"); ("type", VStr "PSScene")].

Definition an_asset : value :=
  VDict [("type", VStr "analytic");
         ("activate_url", VStr "https://api.planet.com/activate/analytic")].

(** The body of an asset listing, with keys that are not in alphabetical
    order. *)
Definition listing_entries : list (string * value) :=
  [("visual", VDict [("type", VStr "visual")]);
   ("analytic", VDict [("type", VStr "analytic")]);
   ("udm", VDict [("type", VStr "udm")])].

Definition listing : value := VDict listing_entries.

(** The worlds after the first, the second and the third page of
    [three_pages], and the result set as a chain. *)
Definition after_page1 : World :=
  {| net := [Returned (page_body page2 (Some "page-3"));
             Returned (page_body page3 None)];
     sent := [first_request] |}.

Definition after_page2 : World :=
  {| net := [Returned (page_body page3 None)];
     sent := [first_request; second_request] |}.

Definition after_page3 : World :=
  {| net := [];
     sent := [first_request; second_request;
              {| url := "page-3"; method := "POST";
                 data := data first_request |}] |}.

Definition three_pages_chain : list (list value * World) :=
  [(page1, after_page1); (page2, after_page2); (page3, after_page3)].

(** A service that hands out one page and turns the request for the second
    one down as a bad query, and the world after the first page. *)
Definition failing_second : list (outcome value) :=
  [Returned (page_body page1 (Some "page-2"));
   Raised (BadQuery (VStr "geometry error"))].

Definition before_failure : World :=
  {| net := [Raised (BadQuery (VStr "geometry error"))];
     sent := [first_request] |}.

(** More error bodies: a [field] object without keys, a [field] whose first
    key holds no errors, and a [field] that is a list. *)
Definition empty_field : value := VDict [("field", VDict [])].

Definition no_errors : value :=
  VDict [("field", VDict [("geometry", VList [])])].

Definition field_list : value :=
  VDict [("field", VList [VStr "geometry"])].

Definition more_docs : list (string * value) :=
  [("empty field", empty_field);
   ("no errors", no_errors);
   ("field list", field_list)].

(** A decoder that knows these bodies too. *)
Definition wide_decoder : JsonLib := json (docs ++ more_docs)%list.

(** A service that hands out one page and has lost the second one, and the
    world after the first page. *)
Definition missing_second : list (outcome value) :=
  [Returned (page_body page1 (Some "page-2"));
   Raised (MissingResource (VStr "no such item"))].

Definition before_missing : World :=
  {| net := [Raised (MissingResource (VStr "no such item"))];
     sent := [first_request] |}.

End Examples.

(** ** A scripted service that answers in text *)

(** The scripted service again, with responses that are the text of the
    body: [resp.json()] decodes it with the table of [Examples.docs] and
    raises for a text the table does not know. *)
Module TextMock.

Definition answer (req : Request) (script : list (outcome string))
    : outcome string * list (outcome string) :=
  match script with
  | [] => (Raised (APIException "ServerError" VNone), [])
  | reply :: rest => (reply, rest)
  end.

Definition decode (body : string) : outcome value :=
  match lookup body Examples.docs with
  | Some v => Returned v
  | None => Raised (JSONDecodeError body)
  end.

Definition session : Session :=
  {| Net := list (outcome string);
     Response := string;
     perform := answer;
     response_json := decode |}.

Definition models : @Models session :=
  {| Item := value;
     Asset := value;
     mkAsset := fun record => record;
     item_type := Mock.attribute "type";
     item_id := Mock.attribute "id";
     activate_url := Mock.attribute "activate_url";
     decode_page := fun body : @Response session =>
       items <- decode body ;; Returned ([items], None);
     follow := fun req link =>
       {| url := link; method := method req; data := data req |} |}.

Definition world (script : list (outcome string)) : @World session :=
  @Build_World session script [].

End TextMock.

(** ** Properties *)

Section Properties.

Context `{JsonLib} `{Models}.
Variable base_url : string.

(** *** Coroutine boundaries *)

Lemma leave_returned (A : Type) (a : A) (w : World) :
  leave (Returned a, w) = (Returned a, w).
Proof. reflexivity. Qed.

Lemma leave_raised (A : Type) (e : exn) (w : World) :
  e <> StopIteration -> leave (A := A) (Raised e, w) = (Raised e, w).
Proof. intros He. destruct e; try reflexivity. contradiction. Qed.

Lemma leave_never_stop_iteration (A : Type) (r : outcome A * World) e w :
  leave r = (Raised e, w) -> e <> StopIteration.
Proof.
  destruct r as [[e0|a] w0]; simpl.
  - destruct e0; intros Heq; inversion Heq; discriminate.
  - intros Heq; inversion Heq.
Qed.

Lemma _do_request_sent (req : Request) (w : World) r w' :
  _do_request req w = (r, w') -> sent w' = (sent w ++ [req])%list.
Proof.
  unfold _do_request. destruct (perform req (net w)) as [r0 n].
  intros Heq. inversion Heq. reflexivity.
Qed.

(** *** Reading the error bodies *)

Lemma lookup_head (k : string) (v : value) (d : list (string * value)) :
  lookup k ((k, v) :: d) = Some v.
Proof. simpl. rewrite String.eqb_refl. reflexivity. Qed.

Lemma bad_query_msg_first s d k first more rest m :
  json_loads s = Some (VDict d) ->
  lookup "field" d = Some (VDict ((k, VList (VDict first :: more)) :: rest)) ->
  lookup "message" first = Some m ->
  bad_query_msg (VStr s) = Returned m.
Proof.
  intros Hs Hf Hm. unfold bad_query_msg, loads. rewrite Hs. cbn [obind].
  unfold getitem_str at 1 2. rewrite Hf. cbn [obind keys map fst next_iter].
  unfold getitem_str at 1. rewrite lookup_head. cbn [obind getitem_0].
  unfold getitem_str. rewrite Hm. reflexivity.
Qed.

Lemma get_assets_msg_first s d first more m :
  json_loads s = Some (VDict d) ->
  lookup "general" d = Some (VList (VDict first :: more)) ->
  lookup "message" first = Some m ->
  get_assets_msg (VStr s) = Returned m.
Proof.
  intros Hs Hg Hm. unfold get_assets_msg, loads. rewrite Hs. cbn [obind].
  unfold getitem_str at 1. rewrite Hg. cbn [obind getitem_0].
  unfold getitem_str. rewrite Hm. reflexivity.
Qed.

Lemma activate_msg_scalar s d g m :
  json_loads s = Some (VDict d) ->
  lookup "general" d = Some (VDict g) ->
  lookup "message" g = Some m ->
  activate_msg (VStr s) = Returned m.
Proof.
  intros Hs Hg Hm. unfold activate_msg, loads. rewrite Hs. cbn [obind].
  unfold getitem_str at 1. rewrite Hg. cbn [obind].
  unfold getitem_str. rewrite Hm. reflexivity.
Qed.

Lemma getitem_str_not_object v k :
  is_object v = false -> getitem_str v k = Raised TypeError.
Proof. destruct v; simpl; intros Hv; [reflexivity..|discriminate]. Qed.

Lemma bad_query_msg_malformed s e :
  bad_query_malformed s e -> bad_query_msg (VStr s) = Raised e.
Proof.
  intros Hbad. unfold bad_query_msg, loads.
  destruct Hbad as [Hs | v Hs Hv | d Hs Hf]; rewrite Hs; cbn [obind].
  - reflexivity.
  - rewrite getitem_str_not_object by assumption. reflexivity.
  - unfold getitem_str at 1. rewrite Hf. reflexivity.
Qed.

Lemma get_assets_msg_malformed s e :
  listing_malformed s e -> get_assets_msg (VStr s) = Raised e.
Proof.
  intros Hbad. unfold get_assets_msg, loads.
  destruct Hbad as [Hs | v Hs Hv | d Hs Hg | d g Hs Hg | d g Hs Hg Hsc
                   | d Hs Hg | d Hs Hg | d c rest Hs Hg
                   | d x more Hs Hg Hx | d first more Hs Hg Hm];
    rewrite Hs; cbn [obind]; try reflexivity.
  - rewrite getitem_str_not_object by assumption. reflexivity.
  - unfold getitem_str at 1. rewrite Hg. reflexivity.
  - unfold getitem_str at 1. rewrite Hg. reflexivity.
  - unfold getitem_str at 1. rewrite Hg. cbn [obind].
    destruct g; try discriminate; reflexivity.
  - unfold getitem_str at 1. rewrite Hg. reflexivity.
  - unfold getitem_str at 1. rewrite Hg. reflexivity.
  - unfold getitem_str at 1. rewrite Hg. reflexivity.
  - unfold getitem_str at 1. rewrite Hg. cbn [obind getitem_0].
    apply getitem_str_not_object, Hx.
  - unfold getitem_str at 1. rewrite Hg. cbn [obind getitem_0].
    unfold getitem_str. rewrite Hm. reflexivity.
Qed.

Lemma activate_msg_malformed s e :
  activation_malformed s e -> activate_msg (VStr s) = Raised e.
Proof.
  intros Hbad. unfold activate_msg, loads.
  destruct Hbad as [Hs | v Hs Hv | d Hs Hg | d g Hs Hg Hob | d g Hs Hg Hm];
    rewrite Hs; cbn [obind]; try reflexivity.
  - rewrite getitem_str_not_object by assumption. reflexivity.
  - unfold getitem_str at 1. rewrite Hg. reflexivity.
  - unfold getitem_str at 1. rewrite Hg. cbn [obind].
    apply getitem_str_not_object, Hob.
  - unfold getitem_str at 1. rewrite Hg. cbn [obind].
    unfold getitem_str. rewrite Hm. reflexivity.
Qed.

(** Every body that does not have the shape a missing-resource handler
    expects is one of the malformed ones. *)
Lemma listing_malformed_complete s :
  (forall m, ~ listing_shape s m) -> exists e, listing_malformed s e.
Proof.
  intros Hshape.
  destruct (json_loads s) as [v|] eqn:Hs; [|eexists; apply ls_not_json, Hs].
  destruct v as [| | | | |l|d];
    try (eexists; eapply ls_not_object; [exact Hs|reflexivity]).
  destruct (lookup "general" d) as [g|] eqn:Hg;
    [|eexists; eapply ls_no_general; eassumption].
  destruct g as [| b | z | lit | str | l | g];
    try (eexists; eapply ls_general_scalar; [exact Hs|exact Hg|reflexivity]).
  - destruct str as [|c rest].
    + eexists; eapply ls_general_empty_str; eassumption.
    + eexists; eapply ls_general_str; eassumption.
  - destruct l as [|x more]; [eexists; eapply ls_general_empty; eassumption|].
    destruct x as [| | | | | |first];
      try (eexists; eapply ls_first_not_object;
           [exact Hs|exact Hg|reflexivity]).
    destruct (lookup "message" first) as [m|] eqn:Hm.
    + exfalso. apply (Hshape m). exists d, first, more. auto.
    + eexists; eapply ls_no_message; eassumption.
  - eexists; eapply ls_general_object; eassumption.
Qed.

Lemma activation_malformed_complete s :
  (forall m, ~ activation_shape s m) -> exists e, activation_malformed s e.
Proof.
  intros Hshape.
  destruct (json_loads s) as [v|] eqn:Hs; [|eexists; apply ac_not_json, Hs].
  destruct v as [| | | | |l|d];
    try (eexists; eapply ac_not_object; [exact Hs|reflexivity]).
  destruct (lookup "general" d) as [g|] eqn:Hg;
    [|eexists; eapply ac_no_general; eassumption].
  destruct g as [| | | | | |g];
    try (eexists; eapply ac_general_not_object;
         [exact Hs|exact Hg|reflexivity]).
  destruct (lookup "message" g) as [m|] eqn:Hm.
  - exfalso. apply (Hshape m). exists d, g. auto.
  - eexists; eapply ac_no_message; eassumption.
Qed.

Lemma bad_query_malformed_kind s e :
  bad_query_malformed s e -> e <> StopIteration.
Proof. intros Hbad; destruct Hbad; discriminate. Qed.

Lemma listing_malformed_kind s e :
  listing_malformed s e -> e <> StopIteration.
Proof. intros Hbad; destruct Hbad; discriminate. Qed.

Lemma activation_malformed_kind s e :
  activation_malformed s e -> e <> StopIteration.
Proof. intros Hbad; destruct Hbad; discriminate. Qed.

(** *** The fetch function of a quick search *)

Lemma _request_and_parse_returned req (w : World) resp w' :
  _do_request req w = (Returned resp, w') ->
  _request_and_parse req w = (Returned resp, w').
Proof.
  intros Hdo. unfold _request_and_parse, coroutine. rewrite Hdo. reflexivity.
Qed.

Lemma _request_and_parse_translates req (w : World) msg w' m :
  _do_request req w = (Raised (BadQuery msg), w') ->
  bad_query_msg msg = Returned m ->
  _request_and_parse req w = (Raised (BadQuery m), w').
Proof.
  intros Hdo Hmsg. unfold _request_and_parse, coroutine.
  rewrite Hdo, Hmsg. reflexivity.
Qed.

Lemma _request_and_parse_propagates req (w : World) msg w' e :
  _do_request req w = (Raised (BadQuery msg), w') ->
  bad_query_msg msg = Raised e ->
  e <> StopIteration ->
  _request_and_parse req w = (Raised e, w').
Proof.
  intros Hdo Hmsg He. unfold _request_and_parse, coroutine.
  rewrite Hdo, Hmsg. cbn [obind]. apply leave_raised, He.
Qed.

(** A [field] object without keys: [next] raises [StopIteration], which
    leaves the coroutine as a [RuntimeError]. *)
Lemma _request_and_parse_empty_field req (w : World) s w' d :
  _do_request req w = (Raised (BadQuery (VStr s)), w') ->
  json_loads s = Some (VDict d) ->
  lookup "field" d = Some (VDict []) ->
  _request_and_parse req w = (Raised RuntimeError, w').
Proof.
  intros Hdo Hs Hf. unfold _request_and_parse, coroutine, bad_query_msg, loads.
  rewrite Hdo, Hs. cbn [obind]. unfold getitem_str at 1. rewrite Hf.
  reflexivity.
Qed.

Lemma _request_and_parse_raises req (w : World) e w' :
  _request_and_parse req w = (Raised e, w') -> e <> StopIteration.
Proof. unfold _request_and_parse, coroutine. apply leave_never_stop_iteration. Qed.

(** *** The loop over the iterator *)

Lemma collect_mono f fuel : forall (it : Items) (w : World) r fuel',
  collect fuel f it w = Some r -> fuel <= fuel' ->
  collect fuel' f it w = Some r.
Proof.
  induction fuel as [|fuel IH]; intros it w r fuel' Hrun Hle;
    [discriminate|].
  destruct fuel' as [|fuel']; [lia|].
  simpl in *.
  destruct (Items_step f it w) as [[e|[i it'|it'|it']] w'];
    [destruct e; trivial| | |trivial].
  - destruct (collect fuel f it' w') as [p|] eqn:Hrec; [|discriminate].
    rewrite (IH _ _ _ fuel' Hrec); [assumption|lia].
  - apply IH; [assumption|lia].
Qed.

Lemma collects_yield f (it : Items) (w : World) i it' w' r :
  Items_step f it w = (Returned (Yield i it'), w') ->
  collects f it' w' r -> collects f it w (prepend [i] r).
Proof.
  intros Hstep [fuel Hrun]. exists (S fuel). simpl. rewrite Hstep, Hrun.
  destruct r as [[e|l] w'']; reflexivity.
Qed.

Lemma collects_fetched f (it : Items) (w : World) it' w' r :
  Items_step f it w = (Returned (Fetched it'), w') ->
  collects f it' w' r -> collects f it w r.
Proof.
  intros Hstep [fuel Hrun]. exists (S fuel). simpl. rewrite Hstep. exact Hrun.
Qed.

Lemma collects_stop f (it : Items) (w : World) it' w' :
  Items_step f it w = (Returned (Stop it'), w') ->
  collects f it w (Returned [], w').
Proof. intros Hstep. exists 1. simpl. rewrite Hstep. reflexivity. Qed.

Lemma collects_raise f (it : Items) (w : World) e w' :
  Items_step f it w = (Raised e, w') ->
  e <> StopAsyncIteration ->
  collects f it w (Raised e, w').
Proof.
  intros Hstep He. exists 1. simpl. rewrite Hstep.
  destruct e; try reflexivity. contradiction.
Qed.

Lemma collects_from f (it : Items) (w : World) r :
  collects f it w r ->
  exists fuel0, forall fuel, fuel0 <= fuel -> collect fuel f it w = Some r.
Proof.
  intros [fuel0 Hrun]. exists fuel0. intros fuel Hle.
  eapply collect_mono; eassumption.
Qed.

Lemma limit_reached_under buf nx y lim :
  under_limit lim y -> limit_reached (reading buf nx y lim) = false.
Proof.
  unfold limit_reached, under_limit. destruct lim as [n|]; simpl; trivial.
  intros Hlt. apply Nat.leb_gt, Hlt.
Qed.

Lemma limit_reached_at buf nx y n :
  n <= y -> limit_reached (reading buf nx y (Some n)) = true.
Proof. intros Hle. apply Nat.leb_le, Hle. Qed.

Lemma step_limit f buf nx y n (w : World) :
  n <= y ->
  Items_step f (reading buf nx y (Some n)) w
  = (Returned (Stop (exhausted (reading buf nx y (Some n)))), w).
Proof.
  intros Hle. unfold Items_step. cbn [state reading].
  rewrite limit_reached_at by assumption. reflexivity.
Qed.

Lemma step_yield f i buf nx y lim (w : World) :
  under_limit lim y ->
  Items_step f (reading (i :: buf) nx y lim) w
  = (Returned (Yield i (reading buf nx (S y) lim)), w).
Proof.
  intros Hlim. unfold Items_step. cbn [state reading].
  rewrite limit_reached_under by assumption. reflexivity.
Qed.

Lemma step_end f y lim (w : World) :
  under_limit lim y ->
  Items_step f (reading [] None y lim) w
  = (Returned (Stop (exhausted (reading [] None y lim))), w).
Proof.
  intros Hlim. unfold Items_step. cbn [state reading].
  rewrite limit_reached_under by assumption. reflexivity.
Qed.

Lemma step_fetch f req y lim (w : World) resp w' items next :
  under_limit lim y ->
  f req w = (Returned resp, w') ->
  decode_page resp = Returned (items, next) ->
  Items_step f (reading [] (Some req) y lim) w
  = (Returned (Fetched (reading items (option_map (follow req) next) y lim)),
     w').
Proof.
  intros Hlim Hf Hpage. unfold Items_step. cbn [state reading].
  rewrite limit_reached_under by assumption. simpl.
  rewrite Hf, Hpage. reflexivity.
Qed.

Lemma step_fetch_raises f req y lim (w : World) e w' :
  under_limit lim y ->
  f req w = (Raised e, w') ->
  Items_step f (reading [] (Some req) y lim) w = (Raised e, w').
Proof.
  intros Hlim Hf. unfold Items_step. cbn [state reading].
  rewrite limit_reached_under by assumption. simpl.
  rewrite Hf. reflexivity.
Qed.

Lemma under_limit_le lim k k' :
  under_limit lim k -> k' <= k -> under_limit lim k'.
Proof. destruct lim as [n|]; simpl; [lia|trivial]. Qed.

Lemma within_limit_le lim k k' :
  within_limit lim k -> k' < k -> under_limit lim k'.
Proof. destruct lim as [n|]; simpl; [lia|trivial]. Qed.

Lemma prepend_nil r : prepend [] r = r.
Proof. destruct r as [[e|l] w]; reflexivity. Qed.

Lemma prepend_app xs ys r :
  prepend xs (prepend ys r) = prepend (xs ++ ys) r.
Proof.
  destruct r as [[e|l] w]; simpl; [reflexivity|].
  rewrite app_assoc. reflexivity.
Qed.

(** The buffered items come out first, as long as the limit allows all of
    them. *)
Lemma collects_drain f nx lim (w : World) r : forall buf y y',
  within_limit lim y' -> y' = y + length buf ->
  collects f (reading [] nx y' lim) w r ->
  collects f (reading buf nx y lim) w (prepend buf r).
Proof.
  induction buf as [|i buf IH]; intros y y' Hlim Hy Hrun.
  - simpl in Hy. rewrite Nat.add_0_r in Hy. subst y'.
    rewrite prepend_nil. exact Hrun.
  - simpl in Hy.
    change (i :: buf) with ([i] ++ buf)%list at 2. rewrite <- prepend_app.
    eapply collects_yield.
    + apply step_yield. eapply within_limit_le; [exact Hlim|lia].
    + apply (IH (S y) y'); [exact Hlim|lia|exact Hrun].
Qed.

(** A page read under a limit [n], when the limit falls inside the page or
    no page follows: the first [n - y] items, and no fetch. *)
Lemma collects_page f nx n (w : World) : forall buf y,
  y <= n -> nx = None \/ n - y <= length buf ->
  collects f (reading buf nx y (Some n)) w
           (Returned (firstn (n - y) buf), w).
Proof.
  induction buf as [|i buf IH]; intros y Hle Hend.
  - rewrite firstn_nil.
    destruct (Nat.eq_dec y n) as [Heq|Hne].
    + eapply collects_stop. apply step_limit. lia.
    + destruct Hend as [Hnone|Hin]; [|simpl in Hin; lia].
      subst nx. eapply collects_stop. apply step_end. simpl. lia.
  - destruct (Nat.eq_dec y n) as [Heq|Hne].
    + replace (n - y) with 0 by lia. simpl.
      eapply collects_stop. apply step_limit. lia.
    + replace (n - y) with (S (n - S y)) by lia. simpl.
      change (Returned (i :: firstn (n - S y) buf), w)
        with (prepend [i] (Returned (firstn (n - S y) buf), w)).
      eapply collects_yield.
      * apply step_yield. simpl. lia.
      * apply IH; [lia|]. destruct Hend as [Hnone|Hin]; [left; exact Hnone|].
        right. simpl in Hin. lia.
Qed.

Lemma stop_world_needs need (w : World) items w1 rest :
  0 < need ->
  stop_world need w ((items, w1) :: rest)
  = stop_world (need - length items) w1 rest.
Proof. destruct need; [lia|reflexivity]. Qed.

Lemma stop_world_done need (w : World) : stop_world need w [] = w.
Proof. reflexivity. Qed.

Section Fetching.

(** A fetch function that hands a response of the service on as it is. *)
Variable f : Request -> coro Response.
Hypothesis f_returned : forall req (w : World) resp w',
  _do_request req w = (Returned resp, w') -> f req w = (Returned resp, w').

(** Pages that are served and stay under the limit are read to their end:
    the loop goes on with the request after them. *)
Lemma collects_served lim req (w : World) pages req' w' :
  served req w pages req' w' ->
  forall buf y y' r,
  y' = y + length buf + length (concat pages) ->
  under_limit lim y' ->
  collects f (reading [] (Some req') y' lim) w' r ->
  collects f (reading buf (Some req) y lim) w
           (prepend (buf ++ concat pages) r).
Proof.
  induction 1 as [req w | req w resp w1 items link pages req' w' Hdo Hpage _ IH];
    intros buf y y' r Hy Hlim Hrun.
  - simpl in *. rewrite app_nil_r.
    apply collects_drain with (y' := y'); [|lia|exact Hrun].
    destruct lim; simpl in *; [lia|trivial].
  - simpl in Hy. rewrite length_app in Hy. simpl concat.
    rewrite <- prepend_app.
    apply collects_drain with (y' := y + length buf); [|reflexivity|].
    { destruct lim; simpl in *; [lia|trivial]. }
    eapply collects_fetched.
    + eapply step_fetch; [|apply f_returned; exact Hdo|exact Hpage].
      eapply under_limit_le; [exact Hlim|lia].
    + simpl option_map. apply (IH items (y + length buf) y' r);
        [lia|exact Hlim|exact Hrun].
Qed.

(** A whole result set read under a limit [n]: the first [n - y] of the
    items ahead, in the world where the reader stops. *)
Lemma collects_chain n req (w : World) pgs :
  chain req w pgs ->
  forall buf y,
  y <= n ->
  collects f (reading buf (Some req) y (Some n)) w
           (Returned (firstn (n - y) (buf ++ concat (map fst pgs))),
            stop_world (n - y - length buf) w pgs).
Proof.
  induction 1 as [req w resp w1 items Hdo Hpage
                 | req w resp w1 items link pgs Hdo Hpage _ IH];
    intros buf y Hle.
  - destruct (le_lt_dec (n - y) (length buf)) as [Hin|Hout].
    + replace (n - y - length buf) with 0 by lia. simpl stop_world.
      rewrite firstn_app. replace (n - y - length buf) with 0 by lia.
      rewrite firstn_O, app_nil_r.
      apply collects_page; [exact Hle|right; exact Hin].
    + rewrite firstn_app, (firstn_all2 buf) by lia.
      simpl map. simpl concat. rewrite app_nil_r.
      rewrite stop_world_needs, stop_world_done by lia.
      replace (n - y - length buf) with (n - (y + length buf)) by lia.
      change (Returned (buf ++ firstn (n - (y + length buf)) items)%list, w1)
        with (prepend buf
                (Returned (firstn (n - (y + length buf)) items), w1)).
      apply collects_drain with (y' := y + length buf);
        [simpl; lia|reflexivity|].
      eapply collects_fetched.
      * eapply step_fetch; [|apply f_returned; exact Hdo|exact Hpage].
        simpl. lia.
      * simpl option_map. apply collects_page; [lia|left; reflexivity].
  - destruct (le_lt_dec (n - y) (length buf)) as [Hin|Hout].
    + replace (n - y - length buf) with 0 by lia. simpl stop_world.
      rewrite firstn_app. replace (n - y - length buf) with 0 by lia.
      rewrite firstn_O, app_nil_r.
      apply collects_page; [exact Hle|right; exact Hin].
    + rewrite firstn_app, (firstn_all2 buf) by lia.
      simpl map. simpl concat.
      rewrite stop_world_needs by lia.
      replace (n - y - length buf) with (n - (y + length buf)) by lia.
      change (Returned
                (buf ++ firstn (n - (y + length buf))
                          (items ++ concat (map fst pgs)))%list,
              stop_world (n - (y + length buf) - length items) w1 pgs)
        with (prepend buf
                (Returned (firstn (n - (y + length buf))
                             (items ++ concat (map fst pgs))%list),
                 stop_world (n - (y + length buf) - length items) w1 pgs)).
      apply collects_drain with (y' := y + length buf);
        [simpl; lia|reflexivity|].
      eapply collects_fetched.
      * eapply step_fetch; [|apply f_returned; exact Hdo|exact Hpage].
        simpl. lia.
      * simpl option_map. apply IH. lia.
Qed.

End Fetching.

(** *** Counting the fetches *)

Lemma chain_sent req (w : World) pgs :
  chain req w pgs ->
  forall need,
  length (sent (stop_world need w pgs))
  = length (sent w) + fetches need (map fst pgs).
Proof.
  induction 1 as [req w resp w1 items Hdo Hpage
                 | req w resp w1 items link pgs Hdo Hpage _ IH];
    intros [|need]; simpl; try lia.
  - rewrite (_do_request_sent _ _ Hdo), length_app. simpl. lia.
  - rewrite IH, (_do_request_sent _ _ Hdo), length_app. simpl. lia.
Qed.

Lemma fetches_bound : forall (pages : list (list Item)) need k,
  need <= length (concat (firstn k pages)) -> fetches need pages <= k.
Proof.
  induction pages as [|items pages IH]; intros need k Hk; simpl; [lia|].
  destruct need as [|need]; [lia|].
  destruct k as [|k]; simpl in Hk; [lia|].
  rewrite length_app in Hk. apply le_n_S, IH. lia.
Qed.

(** *** Quick search *)

Lemma quick_search_options_unused filt item_types name page_size sort strict
    lim fuel (w : World) :
  quick_search base_url filt item_types name page_size sort strict lim fuel w
  = quick_search base_url filt item_types None None None None lim fuel w.
Proof. reflexivity. Qed.

(** A failing fetch ends the search with the error of the fetch function,
    unless the error is the one that ends an iteration. *)
Lemma quick_search_fetch_raises filt item_types name page_size sort strict
    lim (w : World) pages req w1 e w2 :
  served (quick_search_request base_url filt item_types) w pages req w1 ->
  under_limit lim (length (concat pages)) ->
  _request_and_parse req w1 = (Raised e, w2) ->
  e <> StopAsyncIteration ->
  exists fuel0, forall fuel, fuel0 <= fuel ->
    quick_search base_url filt item_types name page_size sort strict lim
                 fuel w
    = Some (Raised e, w2).
Proof.
  intros Hserved Hlim Hfetch Hend.
  assert (Hrun : collects _request_and_parse
            (Items_init (quick_search_request base_url filt item_types) lim)
            w (Raised e, w2)).
  { change (Raised e, w2)
      with (prepend ([] ++ concat pages) (Raised (A := list Item) e, w2)).
    eapply (collects_served _request_and_parse_returned (lim := lim) Hserved
              [] 0); [reflexivity|exact Hlim|].
    apply collects_raise; [apply step_fetch_raises; assumption|exact Hend]. }
  destruct (collects_from Hrun) as [fuel0 Hfuel].
  exists fuel0. intros fuel Hle. unfold quick_search.
  rewrite (Hfuel fuel Hle). cbn [option_map].
  rewrite leave_raised; [reflexivity|].
  eapply _request_and_parse_raises; exact Hfetch.
Qed.

(** C3. When a page request of [quick_search] fails with a [BadQuery]
    whose message decodes to an object with a [field] object, the search
    raises a [BadQuery] whose message is the [message] of the first element
    of the list under the first key of [field], and nothing else of the
    body. *)
Theorem quick_search_bad_query_first_message
    filt item_types name page_size sort strict lim (w : World)
    pages req w1 s w2 d k first more rest m :
  served (quick_search_request base_url filt item_types) w pages req w1 ->
  under_limit lim (length (concat pages)) ->
  _do_request req w1 = (Raised (BadQuery (VStr s)), w2) ->
  json_loads s = Some (VDict d) ->
  lookup "field" d = Some (VDict ((k, VList (VDict first :: more)) :: rest)) ->
  lookup "message" first = Some m ->
  exists fuel0, forall fuel, fuel0 <= fuel ->
    quick_search base_url filt item_types name page_size sort strict lim
                 fuel w
    = Some (Raised (BadQuery m), w2).
Proof.
  intros Hserved Hlim Hdo Hs Hfield Hm.
  eapply quick_search_fetch_raises; [exact Hserved|exact Hlim| |discriminate].
  eapply _request_and_parse_translates; [exact Hdo|].
  eapply bad_query_msg_first; eassumption.
Qed.

(** C7. Under a limit [n], [quick_search] over a paged result set returns
    the first [n] items of the set, all of them when there are fewer: min(n,
    total) items. It fetches a page only while items are needed, so when the
    first [k] pages hold [n] items no more than [k] requests are made. *)
Theorem quick_search_limit
    filt item_types name page_size sort strict n (w : World) pgs :
  chain (quick_search_request base_url filt item_types) w pgs ->
  exists fuel0, forall fuel, fuel0 <= fuel ->
    exists l w',
      quick_search base_url filt item_types name page_size sort strict
                   (Some n) fuel w
      = Some (Returned l, w') /\
      l = firstn n (concat (map fst pgs)) /\
      length l = Nat.min n (length (concat (map fst pgs))) /\
      w' = stop_world n w pgs /\
      length (sent w') = length (sent w) + fetches n (map fst pgs) /\
      (forall k, n <= length (concat (firstn k (map fst pgs))) ->
                 length (sent w') <= length (sent w) + k).
Proof.
  intros Hchain.
  pose proof (collects_chain _request_and_parse _request_and_parse_returned
                Hchain [] (Nat.le_0_l n)) as Hrun.
  simpl in Hrun. rewrite !Nat.sub_0_r in Hrun.
  destruct (collects_from Hrun) as [fuel0 Hfuel].
  exists fuel0. intros fuel Hle.
  exists (firstn n (concat (map fst pgs))), (stop_world n w pgs).
  split; [|split; [|split; [|split; [|split]]]].
  - unfold quick_search, Items_init.
    change (reading [] (Some (quick_search_request base_url filt item_types))
                    0 (Some n))
      with {| state := FETCHING; page := [];
              next_page := Some (quick_search_request base_url filt item_types);
              yielded := 0; limit := Some n |} in Hfuel.
    rewrite (Hfuel fuel Hle). reflexivity.
  - reflexivity.
  - apply length_firstn.
  - reflexivity.
  - apply (chain_sent Hchain).
  - intros k Hk. rewrite (chain_sent Hchain).
    apply Nat.add_le_mono_l, fetches_bound, Hk.
Qed.

(** *** Assets *)

(** C4. When the request of [get_assets] fails with a [MissingResource]
    whose message decodes to an object with a list under [general] that
    starts with an object with a [message], [get_assets] raises a
    [MissingResource] with exactly that message. *)
Theorem get_assets_missing_resource_message
    item (w : World) s w' d first more m :
  _do_request (get_assets_request base_url item) w
  = (Raised (MissingResource (VStr s)), w') ->
  json_loads s = Some (VDict d) ->
  lookup "general" d = Some (VList (VDict first :: more)) ->
  lookup "message" first = Some m ->
  get_assets base_url item w = (Raised (MissingResource m), w').
Proof.
  intros Hdo Hs Hg Hm. unfold get_assets, coroutine.
  rewrite Hdo, (get_assets_msg_first _ Hs Hg Hm). reflexivity.
Qed.

(** C5. When the request of [activate] fails with a [MissingResource] whose
    message decodes to an object with an object under [general] that has a
    [message], [activate] raises a [MissingResource] with exactly that
    message. The shape is not the one of [get_assets]: read the way
    [get_assets] reads it, the same body is a [KeyError] on the index 0. *)
Theorem activate_missing_resource_message
    asset (w : World) s w' d g m :
  _do_request (activate_request asset) w
  = (Raised (MissingResource (VStr s)), w') ->
  json_loads s = Some (VDict d) ->
  lookup "general" d = Some (VDict g) ->
  lookup "message" g = Some m ->
  activate asset w = (Raised (MissingResource m), w') /\
  get_assets_msg (VStr s) = Raised (KeyError (VInt 0)).
Proof.
  intros Hdo Hs Hg Hm. split.
  - unfold activate, coroutine.
    rewrite Hdo, (activate_msg_scalar _ Hs Hg Hm). reflexivity.
  - apply get_assets_msg_malformed. eapply ls_general_object; eassumption.
Qed.

(** C6. An error body that does not have the expected shape (a text that is
    not JSON, no [field] for a bad query, no [general] or not the expected
    structure under it for a missing resource) ends [quick_search],
    [get_assets] and [activate] with the very error that reading it raised;
    and every missing-resource body without the expected shape is such a
    body. *)
Theorem parse_errors_propagate :
  (forall filt item_types name page_size sort strict lim (w : World)
          pages req w1 s w2 e,
     served (quick_search_request base_url filt item_types) w pages req w1 ->
     under_limit lim (length (concat pages)) ->
     _do_request req w1 = (Raised (BadQuery (VStr s)), w2) ->
     bad_query_malformed s e ->
     exists fuel0, forall fuel, fuel0 <= fuel ->
       quick_search base_url filt item_types name page_size sort strict lim
                    fuel w
       = Some (Raised e, w2)) /\
  (forall item (w : World) s w' e,
     _do_request (get_assets_request base_url item) w
     = (Raised (MissingResource (VStr s)), w') ->
     listing_malformed s e ->
     get_assets base_url item w = (Raised e, w')) /\
  (forall asset (w : World) s w' e,
     _do_request (activate_request asset) w
     = (Raised (MissingResource (VStr s)), w') ->
     activation_malformed s e ->
     activate asset w = (Raised e, w')) /\
  (forall s, (forall m, ~ listing_shape s m) ->
             exists e, listing_malformed s e) /\
  (forall s, (forall m, ~ activation_shape s m) ->
             exists e, activation_malformed s e).
Proof.
  split; [|split; [|split; [|split]]].
  - intros filt item_types name page_size sort strict lim w pages req w1 s w2
           e Hserved Hlim Hdo Hbad.
    eapply quick_search_fetch_raises; [exact Hserved|exact Hlim| |].
    + eapply _request_and_parse_propagates; [exact Hdo| |].
      * apply bad_query_msg_malformed, Hbad.
      * eapply bad_query_malformed_kind, Hbad.
    + destruct Hbad; discriminate.
  - intros item w s w' e Hdo Hbad. unfold get_assets, coroutine.
    rewrite Hdo, (get_assets_msg_malformed Hbad). cbn [obind].
    apply leave_raised. eapply listing_malformed_kind, Hbad.
  - intros asset w s w' e Hdo Hbad. unfold activate, coroutine.
    rewrite Hdo, (activate_msg_malformed Hbad). cbn [obind].
    apply leave_raised. eapply activation_malformed_kind, Hbad.
  - exact listing_malformed_complete.
  - exact activation_malformed_complete.
Qed.

(** C8. [get_asset] and [download] raise [NotImplementedError] whatever
    their arguments, and leave the world as it was: no request is built or
    performed. *)
Theorem stubs_not_implemented
    (item : Item) (asset_type : string) (asset : Asset) (w : World) :
  get_asset item asset_type w = (Raised NotImplementedError, w) /\
  download asset w = (Raised NotImplementedError, w).
Proof. split; reflexivity. Qed.

(** C9. When the request of [get_assets] succeeds and the body decodes to
    an object, the result is [Asset] applied to the values of the object, in
    the order of its entries. *)
Theorem get_assets_values_in_order item (w : World) resp w' d :
  _do_request (get_assets_request base_url item) w = (Returned resp, w') ->
  response_json resp = Returned (VDict d) ->
  get_assets base_url item w
  = (Returned (map (fun entry => mkAsset (snd entry)) d), w').
Proof.
  intros Hdo Hjson. unfold get_assets, coroutine.
  rewrite Hdo, Hjson. cbn [obind values]. rewrite map_map. reflexivity.
Qed.

(** The characters of a str put together give the str back, and each is a
    leading byte with its continuation bytes when the text starts with a
    leading byte. *)
Lemma concat_cons (x : string) (xs : list string) :
  String.concat "" (x :: xs) = (x ++ String.concat "" xs)%string.
Proof.
  destruct xs as [|y ys]; simpl; [|reflexivity].
  induction x as [|c x IH]; simpl; [reflexivity|]. rewrite <- IH. reflexivity.
Qed.

Lemma all_continuation_prefix (s : string) :
  all_continuation (continuation_prefix s) = true.
Proof.
  induction s as [|b rest IH]; simpl; [reflexivity|].
  destruct (continuation b) eqn:Hb; simpl; [rewrite Hb; exact IH|reflexivity].
Qed.

Lemma scan_spec (s : string) :
  fst (scan s) = continuation_prefix s /\
  (fst (scan s) ++ String.concat "" (snd (scan s)))%string = s /\
  Forall (fun c => code_point c = true) (snd (scan s)).
Proof.
  induction s as [|c rest [Hk [Hcat Hall]]].
  - repeat split. constructor.
  - cbn [scan continuation_prefix].
    destruct (scan rest) as [k cs]. cbn [fst snd] in *.
    destruct (continuation c) eqn:Hc; cbn [fst snd].
    + split; [rewrite Hk; reflexivity|].
      split; [cbn [append]; rewrite Hcat; reflexivity|exact Hall].
    + split; [reflexivity|]. split.
      * rewrite concat_cons. cbn [append]. rewrite Hcat. reflexivity.
      * constructor; [|exact Hall]. cbn [code_point]. rewrite Hc, Hk.
        apply all_continuation_prefix.
Qed.

Lemma code_points_concat (s : string) :
  String.concat "" (code_points s) = s.
Proof.
  destruct (scan_spec s) as [_ [Hcat _]]. unfold code_points.
  destruct (scan s) as [k cs]. simpl in Hcat.
  destruct k as [|b k]; [exact Hcat|].
  rewrite concat_cons. exact Hcat.
Qed.

Lemma code_points_leading (s : string) :
  continuation_prefix s = "" ->
  Forall (fun c => code_point c = true) (code_points s).
Proof.
  destruct (scan_spec s) as [Hk [_ Hall]]. unfold code_points.
  destruct (scan s) as [k cs]. simpl in *. intros Hclean.
  subst k. rewrite Hclean. exact Hall.
Qed.

(** [s[0]] is the first of the characters of [s]. *)
Lemma getitem_0_first_character (s : string) :
  getitem_0 (VStr s)
  = match chars s with
    | [] => Raised IndexError
    | c :: _ => Returned c
    end.
Proof.
  destruct s as [|c rest]; [reflexivity|].
  unfold chars, code_points. cbn [getitem_0 scan].
  destruct (scan_spec rest) as [Hk _].
  destruct (scan rest) as [k cs]. cbn [fst] in Hk. subst k.
  destruct (continuation c); reflexivity.
Qed.

(** C10. When the request of [activate] succeeds, the result is the list of
    [Asset] applied to each element that iterating the decoded body yields:
    for an object its keys, not its values, in the order of the entries;
    for a list its elements; for a str its characters. *)
Theorem activate_wraps_iterated asset (w : World) resp w' body :
  _do_request (activate_request asset) w = (Returned resp, w') ->
  response_json resp = Returned body ->
  (forall d, body = VDict d ->
     activate asset w
     = (Returned (map (fun entry => mkAsset (VStr (fst entry))) d), w')) /\
  (forall l, body = VList l ->
     activate asset w = (Returned (map mkAsset l), w')) /\
  (forall s, body = VStr s ->
     activate asset w
     = (Returned (map (fun c => mkAsset (VStr c)) (code_points s)), w') /\
     String.concat "" (code_points s) = s /\
     (continuation_prefix s = "" ->
      Forall (fun c => code_point c = true) (code_points s))).
Proof.
  intros Hdo Hjson. unfold activate, coroutine. rewrite Hdo, Hjson.
  cbn [obind]. split; [|split].
  - intros d Hbody. subst body. simpl. rewrite map_map. reflexivity.
  - intros l Hbody. subst body. reflexivity.
  - intros s Hbody. subst body. split; [|split].
    + simpl. unfold chars. rewrite map_map. reflexivity.
    + apply code_points_concat.
    + apply code_points_leading.
Qed.

End Properties.

(** ** The properties on the scripted service *)

Section Runs.

Import Mock Examples.

(** C1. A sort value outside [SORT_ORDER] is not turned down: the search is
    sent to the service and its items are returned. *)
Example quick_search_unlisted_sort_is_sent :
  ~ In "cloud_cover asc" SORT_ORDER /\
  quick_search base filt item_types None None (Some "cloud_cover asc") None
               None 4 (world [Returned (page_body page3 None)])
  = Some (Returned page3, {| net := []; sent := [first_request] |}).
Proof.
  split; [|reflexivity].
  simpl. intros [Heq|[Heq|[Heq|[Heq|[]]]]]; discriminate.
Qed.

(** C2. A search with a name, a page size, a sort order and the strict flag
    sends the request of a search without them: a POST to the quick-search
    URL with the filter and the item types as its body, and nothing that
    carries the four options. *)
Example quick_search_request_drops_options :
  quick_search base filt item_types (Some "last week") (Some 10%Z)
               (Some "acquired asc") (Some true)
               None 4 (world [Returned (page_body page3 None)])
  = Some (Returned page3, {| net := []; sent := [first_request] |}) /\
  quick_search base filt item_types None None None None
               None 4 (world [Returned (page_body page3 None)])
  = Some (Returned page3, {| net := []; sent := [first_request] |}) /\
  first_request
  = {| url := (base ++ "data/v1/" ++ "quick-search")%string;
       method := "POST";
       data := Some (VDict [("filter", filt); ("item_types", item_types)]) |}.
Proof. repeat split. Qed.

Lemma quick_search_bad_query_first_message_witness :
  exists fuel0, forall fuel, fuel0 <= fuel ->
    quick_search base filt item_types None None None None None fuel
      (world failing_second)
    = Some (Raised (BadQuery (VStr "invalid coordinates")),
            {| net := []; sent := [first_request; second_request] |}).
Proof.
  eapply quick_search_bad_query_first_message
    with (pages := [page1]) (s := "geometry error") (k := "geometry").
  - apply served_page with (resp := page_body page1 (Some "page-2"))
                          (w1 := before_failure) (link := "page-2");
      [reflexivity|reflexivity|apply (@served_none session models)].
  - exact I.
  - reflexivity.
  - reflexivity.
  - reflexivity.
  - reflexivity.
Defined.

Lemma quick_search_limit_witness :
  exists fuel0, forall fuel, fuel0 <= fuel ->
    exists l w',
      quick_search base filt item_types None None None None (Some 5) fuel
                   (world three_pages)
      = Some (Returned l, w') /\
      l = firstn 5 (concat (map fst three_pages_chain)) /\
      length l = Nat.min 5 (length (concat (map fst three_pages_chain))) /\
      w' = stop_world 5 (world three_pages) three_pages_chain /\
      length (sent w')
      = length (sent (world three_pages))
        + fetches 5 (map fst three_pages_chain) /\
      (forall k, 5 <= length (concat (firstn k (map fst three_pages_chain))) ->
                 length (sent w') <= length (sent (world three_pages)) + k).
Proof.
  refine (@quick_search_limit decoder session models base filt item_types
            None None None None 5 (world three_pages) three_pages_chain _).
  apply chain_next with (resp := page_body page1 (Some "page-2"))
                        (link := "page-2"); [reflexivity|reflexivity|].
  apply chain_next with (resp := page_body page2 (Some "page-3"))
                        (link := "page-3"); [reflexivity|reflexivity|].
  apply chain_last with (resp := page_body page3 None); reflexivity.
Defined.

(** Pages of 3, 3 and 2 items under a limit of 5: five items, two requests,
    and the third page still with the service. *)
Example quick_search_three_pages_limit_5 :
  quick_search base filt item_types None None None None (Some 5) 8
               (world three_pages)
  = Some (Returned [scene 1; scene 2; scene 3; scene 4; scene 5],
          after_page2) /\
  stop_world 5 (world three_pages) three_pages_chain = after_page2 /\
  fetches 5 (map fst three_pages_chain) = 2.
Proof. repeat split. Qed.

(** The same pages without a limit: all eight items, three requests. *)
Example quick_search_three_pages_no_limit :
  quick_search base filt item_types None None None None None 12
               (world three_pages)
  = Some (Returned (page1 ++ page2 ++ page3)%list, after_page3).
Proof. reflexivity. Qed.

Lemma get_assets_missing_resource_message_witness :
  get_assets base an_item (world [Raised (MissingResource (VStr "no such item"))])
  = (Raised (MissingResource (VStr "no such item")),
     {| net := []; sent := [get_assets_request base an_item] |}).
Proof.
  eapply get_assets_missing_resource_message with (s := "no such item");
    reflexivity.
Defined.

Lemma activate_missing_resource_message_witness :
  activate an_asset (world [Raised (MissingResource (VStr "no such asset"))])
  = (Raised (MissingResource (VStr "no such asset")),
     {| net := []; sent := [activate_request an_asset] |}) /\
  get_assets_msg (VStr "no such asset") = Raised (KeyError (VInt 0)).
Proof.
  eapply activate_missing_resource_message with (s := "no such asset");
    reflexivity.
Defined.

Lemma parse_errors_propagate_witness :
  (exists fuel0, forall fuel, fuel0 <= fuel ->
     quick_search base filt item_types None None None None None fuel
       (world [Raised (BadQuery (VStr "no detail"))])
     = Some (Raised (KeyError (VStr "field")),
             {| net := []; sent := [first_request] |})) /\
  get_assets base an_item
    (world [Raised (MissingResource (VStr "<html>Not Found</html>"))])
  = (Raised (JSONDecodeError "<html>Not Found</html>"),
     {| net := []; sent := [get_assets_request base an_item] |}) /\
  activate an_asset (world [Raised (MissingResource (VStr "no such item"))])
  = (Raised TypeError,
     {| net := []; sent := [activate_request an_asset] |}).
Proof.
  destruct (parse_errors_propagate (H := decoder) (H1 := models) base)
    as [Hsearch [Hlist [Hact _]]].
  split; [|split].
  - apply (Hsearch filt item_types None None None None None
             (world [Raised (BadQuery (VStr "no detail"))]) []
             first_request (world [Raised (BadQuery (VStr "no detail"))])
             "no detail").
    + apply (@served_none session models).
    + exact I.
    + reflexivity.
    + eapply bq_no_field; reflexivity.
  - apply (Hlist an_item _ "<html>Not Found</html>"); [reflexivity|].
    apply ls_not_json. reflexivity.
  - apply (Hact an_asset _ "no such item"); [reflexivity|].
    eapply ac_general_not_object; reflexivity.
Defined.

Lemma get_assets_values_in_order_witness :
  get_assets base an_item (world [Returned listing])
  = (Returned [VDict [("type", VStr "visual")];
               VDict [("type", VStr "analytic")];
               VDict [("type", VStr "udm")]],
     {| net := []; sent := [get_assets_request base an_item] |}).
Proof.
  refine (@get_assets_values_in_order decoder session models base an_item
            (world [Returned listing]) listing _ listing_entries _ _);
    reflexivity.
Defined.

Lemma activate_wraps_iterated_witness :
  activate an_asset (world [Returned listing])
  = (Returned [VStr "visual"; VStr "analytic"; VStr "udm"],
     {| net := []; sent := [activate_request an_asset] |}).
Proof.
  refine (proj1 (@activate_wraps_iterated decoder session models an_asset
                   (world [Returned listing]) listing _ listing _ _)
                listing_entries _);
    reflexivity.
Defined.

(** A body that is a list, and a body that is a str with a character of
    two bytes. *)
Example activate_list_body :
  activate an_asset (world [Returned (VList [scene 1; scene 2])])
  = (Returned [scene 1; scene 2],
     {| net := []; sent := [activate_request an_asset] |}).
Proof. reflexivity. Qed.

Example activate_str_body :
  activate an_asset (world [Returned (VStr "hé!")])
  = (Returned [VStr "h"; VStr "é"; VStr "!"],
     {| net := []; sent := [activate_request an_asset] |}).
Proof. reflexivity. Qed.

End Runs.

(** ** More properties of the client *)

Section MoreProperties.

Context `{JsonLib} `{Models}.
Variable base_url : string.

Lemma leave_world (A : Type) (r : outcome A * World) :
  snd (leave r) = snd r.
Proof. destruct r as [[e|a] w]; [destruct e|]; reflexivity. Qed.

Lemma leave_keeps (A : Type) (r : outcome A * World) :
  match fst r with
  | Raised e => e <> StopIteration
  | Returned _ => True
  end ->
  leave r = r.
Proof.
  destruct r as [[e|a] w]; simpl; [|reflexivity].
  intros He. destruct e; try reflexivity. contradiction.
Qed.

(** *** What the handlers leave alone *)

(** [_request_and_parse] touches nothing but a [BadQuery]: a response and
    an error of any other kind come out as [_do_request] gave them. *)
Theorem _request_and_parse_only_bad_query req (w : World) r w' :
  _do_request req w = (r, w') ->
  match r with
  | Raised e => is_bad_query e = false /\ e <> StopIteration
  | Returned _ => True
  end ->
  _request_and_parse req w = (r, w').
Proof.
  intros Hdo Hr. unfold _request_and_parse, coroutine. rewrite Hdo.
  destruct r as [e|resp]; [|reflexivity].
  destruct Hr as [Hkind Hstop].
  destruct e; try reflexivity; try discriminate. contradiction.
Qed.

(** [get_assets] translates nothing but a [MissingResource]: an error of
    another kind, a [BadQuery] among them, is raised as it came. *)
Theorem get_assets_other_errors_pass item (w : World) e w' :
  _do_request (get_assets_request base_url item) w = (Raised e, w') ->
  is_missing_resource e = false ->
  e <> StopIteration ->
  get_assets base_url item w = (Raised e, w').
Proof.
  intros Hdo Hkind Hstop. unfold get_assets, coroutine. rewrite Hdo.
  destruct e; try reflexivity; try discriminate. contradiction.
Qed.

(** [activate] translates nothing but a [MissingResource] either. *)
Theorem activate_other_errors_pass asset (w : World) e w' :
  _do_request (activate_request asset) w = (Raised e, w') ->
  is_missing_resource e = false ->
  e <> StopIteration ->
  activate asset w = (Raised e, w').
Proof.
  intros Hdo Hkind Hstop. unfold activate, coroutine. rewrite Hdo.
  destruct e; try reflexivity; try discriminate. contradiction.
Qed.

(** Whatever comes of it (a result, a translated error, an error body that
    cannot be read), [get_assets], [activate] and [_request_and_parse]
    perform their request once and do nothing else to the world. *)
Theorem one_request_and_no_more item asset req (w : World) :
  snd (get_assets base_url item w)
  = snd (_do_request (get_assets_request base_url item) w) /\
  snd (activate asset w) = snd (_do_request (activate_request asset) w) /\
  snd (_request_and_parse req w) = snd (_do_request req w).
Proof.
  unfold get_assets, activate, _request_and_parse, coroutine.
  rewrite !leave_world. repeat split.
  - destruct (_do_request (get_assets_request base_url item) w)
      as [[e|resp] w']; [destruct e|]; reflexivity.
  - destruct (_do_request (activate_request asset) w)
      as [[e|resp] w']; [destruct e|]; reflexivity.
  - destruct (_do_request req w) as [[e|resp] w']; [destruct e|]; reflexivity.
Qed.

(** No handler swallows an error: when the request fails, the operation
    fails, in the world the request left. *)
Theorem failed_request_fails item asset req (w : World) :
  (forall e w', _do_request (get_assets_request base_url item) w
                = (Raised e, w') ->
     exists e', get_assets base_url item w = (Raised e', w')) /\
  (forall e w', _do_request (activate_request asset) w = (Raised e, w') ->
     exists e', activate asset w = (Raised e', w')) /\
  (forall e w', _do_request req w = (Raised e, w') ->
     exists e', _request_and_parse req w = (Raised e', w')).
Proof.
  assert (Hleave : forall (A : Type) (o : outcome value) (k : value -> exn)
                          (w' : World),
            exists e', leave (A := A) (msg <- o ;; Raised (k msg), w')
                       = (Raised e', w')).
  { intros A o k w'. destruct o as [e0|m]; simpl.
    - destruct e0; eexists; reflexivity.
    - destruct (k m); eexists; reflexivity. }
  repeat split; intros e w' Hdo.
  - unfold get_assets, coroutine. rewrite Hdo.
    destruct e; try (eexists; reflexivity).
    apply (Hleave _ (get_assets_msg message) MissingResource).
  - unfold activate, coroutine. rewrite Hdo.
    destruct e; try (eexists; reflexivity).
    apply (Hleave _ (activate_msg message) MissingResource).
  - unfold _request_and_parse, coroutine. rewrite Hdo.
    destruct e; try (eexists; reflexivity).
    apply (Hleave _ (bad_query_msg message) BadQuery).
Qed.

(** *** When a missing resource is translated *)

Lemma get_assets_msg_returned s m :
  get_assets_msg (VStr s) = Returned m -> listing_shape s m.
Proof.
  unfold get_assets_msg, loads.
  destruct (json_loads s) as [v|] eqn:Hs; [|discriminate]. cbn [obind].
  destruct v as [| | | | | |d]; try discriminate.
  unfold getitem_str at 1.
  destruct (lookup "general" d) as [g|] eqn:Hg; [|discriminate].
  cbn [obind].
  destruct g as [| | | | str |l|g]; try discriminate.
  - destruct str; discriminate.
  - destruct l as [|x more]; [discriminate|]. cbn [getitem_0 obind].
    destruct x as [| | | | | |first]; try discriminate.
    unfold getitem_str.
    destruct (lookup "message" first) as [m0|] eqn:Hm; [|discriminate].
    intros Heq. inversion Heq; subst m0. exists d, first, more. auto.
Qed.

Lemma get_assets_msg_raised s e :
  get_assets_msg (VStr s) = Raised e ->
  is_missing_resource e = false /\ e <> StopIteration.
Proof.
  intros Hmsg.
  assert (Hno : forall m, ~ listing_shape s m).
  { intros m [d [first [more [Hs [Hg Hm]]]]].
    rewrite (get_assets_msg_first _ Hs Hg Hm) in Hmsg. discriminate. }
  destruct (listing_malformed_complete Hno) as [e' He'].
  rewrite (get_assets_msg_malformed He') in Hmsg. inversion Hmsg; subst e'.
  destruct He'; split; try reflexivity; discriminate.
Qed.

Lemma activate_msg_returned s m :
  activate_msg (VStr s) = Returned m -> activation_shape s m.
Proof.
  unfold activate_msg, loads.
  destruct (json_loads s) as [v|] eqn:Hs; [|discriminate]. cbn [obind].
  destruct v as [| | | | | |d]; try discriminate.
  unfold getitem_str at 1.
  destruct (lookup "general" d) as [g|] eqn:Hg; [|discriminate].
  cbn [obind].
  destruct g as [| | | | | |g]; try discriminate.
  unfold getitem_str.
  destruct (lookup "message" g) as [m0|] eqn:Hm; [|discriminate].
  intros Heq. inversion Heq; subst m0. exists d, g. auto.
Qed.

Lemma activate_msg_raised s e :
  activate_msg (VStr s) = Raised e ->
  is_missing_resource e = false /\ e <> StopIteration.
Proof.
  intros Hmsg.
  assert (Hno : forall m, ~ activation_shape s m).
  { intros m [d [g [Hs [Hg Hm]]]].
    rewrite (activate_msg_scalar _ Hs Hg Hm) in Hmsg. discriminate. }
  destruct (activation_malformed_complete Hno) as [e' He'].
  rewrite (activate_msg_malformed He') in Hmsg. inversion Hmsg; subst e'.
  destruct He'; split; try reflexivity; discriminate.
Qed.

(** After a [MissingResource] of the request, [get_assets] raises a
    [MissingResource] with the message [m] exactly when the body has the
    shape it expects and [m] is the message found there: the body itself
    never comes through as the message of the error. *)
Theorem get_assets_translates_iff item (w : World) s w' m :
  _do_request (get_assets_request base_url item) w
  = (Raised (MissingResource (VStr s)), w') ->
  (get_assets base_url item w = (Raised (MissingResource m), w')
   <-> listing_shape s m).
Proof.
  intros Hdo. unfold get_assets, coroutine. rewrite Hdo. split.
  - destruct (get_assets_msg (VStr s)) as [e|m0] eqn:Hmsg; cbn [obind].
    + destruct (get_assets_msg_raised _ Hmsg) as [Hkind Hstop].
      rewrite leave_raised by exact Hstop.
      intros Heq. inversion Heq; subst e. discriminate.
    + intros Heq. inversion Heq; subst m0.
      apply get_assets_msg_returned, Hmsg.
  - intros [d [first [more [Hs [Hg Hm]]]]].
    rewrite (get_assets_msg_first _ Hs Hg Hm). reflexivity.
Qed.

(** The same for [activate] and the shape it expects. *)
Theorem activate_translates_iff asset (w : World) s w' m :
  _do_request (activate_request asset) w
  = (Raised (MissingResource (VStr s)), w') ->
  (activate asset w = (Raised (MissingResource m), w')
   <-> activation_shape s m).
Proof.
  intros Hdo. unfold activate, coroutine. rewrite Hdo. split.
  - destruct (activate_msg (VStr s)) as [e|m0] eqn:Hmsg; cbn [obind].
    + destruct (activate_msg_raised _ Hmsg) as [Hkind Hstop].
      rewrite leave_raised by exact Hstop.
      intros Heq. inversion Heq; subst e. discriminate.
    + intros Heq. inversion Heq; subst m0.
      apply activate_msg_returned, Hmsg.
  - intros [d [g [Hs [Hg Hm]]]].
    rewrite (activate_msg_scalar _ Hs Hg Hm). reflexivity.
Qed.

(** The two shapes exclude each other, and a body of the shape of
    [get_assets] that reaches [activate] ends it with a [TypeError]: the
    list under [general] cannot be subscripted by [message]. *)
Theorem activate_on_listing_shape asset (w : World) s w' m :
  _do_request (activate_request asset) w
  = (Raised (MissingResource (VStr s)), w') ->
  listing_shape s m ->
  activate asset w = (Raised TypeError, w') /\
  (forall m', ~ activation_shape s m').
Proof.
  intros Hdo [d [first [more [Hs [Hg Hm]]]]]. split.
  - unfold activate, coroutine. rewrite Hdo.
    rewrite (@activate_msg_malformed _ s TypeError); [reflexivity|].
    eapply ac_general_not_object; [exact Hs|exact Hg|reflexivity].
  - intros m' [d' [g [Hs' [Hg' _]]]]. congruence.
Qed.

(** A message that is None, a boolean, a number, a list or a dict (a body
    that was decoded already, or no body at all) is not something
    [json.loads] takes: every handler ends in its [TypeError]. *)
Theorem decoded_message_type_error msg :
  is_scalar msg = true \/ (exists l, msg = VList l)
  \/ (exists d, msg = VDict d) ->
  (forall req (w : World) w',
     _do_request req w = (Raised (BadQuery msg), w') ->
     _request_and_parse req w = (Raised TypeError, w')) /\
  (forall item (w : World) w',
     _do_request (get_assets_request base_url item) w
     = (Raised (MissingResource msg), w') ->
     get_assets base_url item w = (Raised TypeError, w')) /\
  (forall asset (w : World) w',
     _do_request (activate_request asset) w
     = (Raised (MissingResource msg), w') ->
     activate asset w = (Raised TypeError, w')).
Proof.
  intros Hmsg.
  assert (Hloads : loads msg = Raised TypeError).
  { destruct Hmsg as [Hsc|[[l Hl]|[d Hd]]]; [|subst; reflexivity..].
    destruct msg; try reflexivity; discriminate. }
  repeat split.
  - intros req w w' Hdo. unfold _request_and_parse, coroutine, bad_query_msg.
    rewrite Hdo, Hloads. reflexivity.
  - intros item w w' Hdo. unfold get_assets, coroutine, get_assets_msg.
    rewrite Hdo, Hloads. reflexivity.
  - intros asset w w' Hdo. unfold activate, coroutine, activate_msg.
    rewrite Hdo, Hloads. reflexivity.
Qed.

(** *** The bad-query bodies that cannot be read *)

Lemma no_first_message_fails errs e :
  no_first_message errs e ->
  (first <- getitem_0 errs ;; getitem_str first "message") = Raised e.
Proof.
  intros [g | v Hv | | | c rest | x more Hx | first more Hm]; try reflexivity.
  - destruct v; try discriminate; reflexivity.
  - cbn [getitem_0 obind]. apply getitem_str_not_object, Hx.
  - cbn [getitem_0 obind]. unfold getitem_str. rewrite Hm. reflexivity.
Qed.

Lemma no_first_message_kind errs e :
  no_first_message errs e -> is_bad_query e = false /\ e <> StopIteration.
Proof. intros Hno; destruct Hno; split; try reflexivity; discriminate. Qed.

Lemma first_message_cases errs :
  (exists first more m,
     errs = VList (VDict first :: more) /\ lookup "message" first = Some m)
  \/ exists e, no_first_message errs e.
Proof.
  destruct errs as [| b | z | lit | str | l | g];
    try (right; eexists; apply nfm_scalar; reflexivity).
  - right. destruct str; eexists; [apply nfm_empty_str|apply nfm_str].
  - destruct l as [|x more]; [right; eexists; apply nfm_empty|].
    destruct x as [| | | | | |first];
      try (right; eexists; apply nfm_not_object; reflexivity).
    destruct (lookup "message" first) as [m|] eqn:Hm.
    + left. exists first, more, m. auto.
    + right. eexists. apply nfm_no_message, Hm.
  - right. eexists. apply nfm_object.
Qed.

Lemma bad_query_msg_field s d fields :
  json_loads s = Some (VDict d) ->
  lookup "field" d = Some fields ->
  bad_query_msg (VStr s)
  = (ks <- keys fields ;;
     field <- next_iter ks ;;
     errs <- getitem_str fields field ;;
     first <- getitem_0 errs ;;
     getitem_str first "message").
Proof.
  intros Hs Hf. unfold bad_query_msg, loads. rewrite Hs. cbn [obind].
  unfold getitem_str at 1 2. rewrite Hf. reflexivity.
Qed.

Lemma bad_query_msg_unreadable s e :
  bad_query_unreadable s e ->
  exists e0, bad_query_msg (VStr s) = Raised e0 /\
             forall (A : Type) (w : World),
               leave (A := A) (Raised e0, w) = (Raised e, w).
Proof.
  intros [d f Hs Hf Hob | d Hs Hf | d k errs rest e' Hs Hf Hno].
  - exists AttributeError. split; [|reflexivity].
    rewrite (bad_query_msg_field _ Hs Hf).
    destruct f; try reflexivity; discriminate.
  - exists StopIteration. split; [|reflexivity].
    rewrite (bad_query_msg_field _ Hs Hf). reflexivity.
  - exists e'. split.
    + rewrite (bad_query_msg_field _ Hs Hf). cbn [keys map fst next_iter obind].
      unfold getitem_str at 1. rewrite lookup_head. cbn [obind].
      apply no_first_message_fails, Hno.
    + intros A w. apply leave_raised.
      apply (no_first_message_kind Hno).
Qed.

Lemma bad_query_cases s :
  (exists m, bad_query_shape s m) \/
  (exists e, bad_query_malformed s e) \/
  (exists e, bad_query_unreadable s e).
Proof.
  destruct (json_loads s) as [v|] eqn:Hs;
    [|right; left; eexists; apply bq_not_json, Hs].
  destruct v as [| | | | | |d];
    try (right; left; eexists; eapply bq_not_object; [exact Hs|reflexivity]).
  destruct (lookup "field" d) as [f|] eqn:Hf;
    [|right; left; eexists; eapply bq_no_field; eassumption].
  destruct f as [| | | | | |fields];
    try (right; right; eexists; eapply bqu_field_not_object;
         [exact Hs|exact Hf|reflexivity]).
  destruct fields as [|[k errs] rest];
    [right; right; eexists; eapply bqu_field_empty; eassumption|].
  destruct (first_message_cases errs)
    as [[first [more [m [Herrs Hm]]]] | [e Hno]].
  - left. subst errs. exists m, d, k, first, more, rest. auto.
  - right; right. exists e. eapply bqu_errors; eassumption.
Qed.

(** A bad-query body with a [field] that cannot be read ends
    [_request_and_parse] with the error of the table: [AttributeError] for a
    [field] that is not an object, [RuntimeError] for one without keys, and
    the error of reading the first message otherwise. With the bodies
    without [field], the table is complete: a body that does not have the
    expected shape is in one or the other. *)
Theorem bad_query_error_table req (w : World) s w' :
  _do_request req w = (Raised (BadQuery (VStr s)), w') ->
  (forall e, bad_query_unreadable s e ->
             _request_and_parse req w = (Raised e, w')) /\
  ((forall m, ~ bad_query_shape s m) ->
   (exists e, bad_query_malformed s e) \/
   (exists e, bad_query_unreadable s e)).
Proof.
  intros Hdo. split.
  - intros e Hbad.
    destruct (bad_query_msg_unreadable Hbad) as [e0 [Hmsg Hleave]].
    unfold _request_and_parse, coroutine. rewrite Hdo, Hmsg. cbn [obind].
    apply Hleave.
  - intros Hno. destruct (bad_query_cases s) as [[m Hm]|Hbad];
      [destruct (Hno m Hm)|exact Hbad].
Qed.

(** After a [BadQuery] of the request, [_request_and_parse] raises a
    [BadQuery] with the message [m] exactly when the body has the expected
    shape and [m] is the first message of its first field. *)
Theorem _request_and_parse_translates_iff req (w : World) s w' m :
  _do_request req w = (Raised (BadQuery (VStr s)), w') ->
  (_request_and_parse req w = (Raised (BadQuery m), w')
   <-> bad_query_shape s m).
Proof.
  intros Hdo. split.
  - intros Hrun.
    destruct (bad_query_cases s) as [[m0 Hm0]|[[e Hbad]|[e Hbad]]].
    + destruct Hm0 as [d [k [first [more [rest [Hs [Hf Hm]]]]]]].
      assert (Hmsg : bad_query_msg (VStr s) = Returned m0)
        by (eapply bad_query_msg_first; eassumption).
      assert (Ht : _request_and_parse req w = (Raised (BadQuery m0), w'))
        by (eapply _request_and_parse_translates; eassumption).
      rewrite Ht in Hrun.
      inversion Hrun; subst m0. exists d, k, first, more, rest. auto.
    + assert (Ht : _request_and_parse req w = (Raised e, w')).
      { eapply _request_and_parse_propagates; [exact Hdo| |].
        - apply bad_query_msg_malformed, Hbad.
        - eapply bad_query_malformed_kind, Hbad. }
      rewrite Ht in Hrun.
      inversion Hrun; subst e. inversion Hbad.
    + destruct (bad_query_msg_unreadable Hbad) as [e0 [Hmsg Hleave]].
      unfold _request_and_parse, coroutine in Hrun.
      rewrite Hdo, Hmsg in Hrun. cbn [obind] in Hrun.
      rewrite Hleave in Hrun. inversion Hrun; subst e.
      inversion Hbad as [| |d k errs rest e' Hs Hf Hno].
      subst. destruct (no_first_message_kind Hno). discriminate.
  - intros [d [k [first [more [rest [Hs [Hf Hm]]]]]]].
    eapply _request_and_parse_translates; [exact Hdo|].
    eapply bad_query_msg_first; eassumption.
Qed.

(** *** Responses that are not what the client expects *)

(** A listing whose body is not an object has no [values]: [get_assets]
    ends in an [AttributeError]. *)
Theorem get_assets_body_not_object item (w : World) resp w' body :
  _do_request (get_assets_request base_url item) w = (Returned resp, w') ->
  response_json resp = Returned body ->
  is_object body = false ->
  get_assets base_url item w = (Raised AttributeError, w').
Proof.
  intros Hdo Hjson Hbody. unfold get_assets, coroutine. rewrite Hdo, Hjson.
  destruct body; try reflexivity; discriminate.
Qed.

(** An activation whose body is null, a boolean or a number cannot be
    iterated: [activate] ends in a [TypeError]. *)
Theorem activate_body_not_iterable asset (w : World) resp w' body :
  _do_request (activate_request asset) w = (Returned resp, w') ->
  response_json resp = Returned body ->
  is_scalar body = true ->
  activate asset w = (Raised TypeError, w').
Proof.
  intros Hdo Hjson Hbody. unfold activate, coroutine. rewrite Hdo, Hjson.
  destruct body; try reflexivity; discriminate.
Qed.

(** A response whose body cannot be decoded: the error of [resp.json()]
    ends [get_assets] and [activate]. *)
Theorem undecodable_response_raises (resp : Response) e :
  response_json resp = Raised e ->
  e <> StopIteration ->
  (forall item (w : World) w',
     _do_request (get_assets_request base_url item) w = (Returned resp, w') ->
     get_assets base_url item w = (Raised e, w')) /\
  (forall asset (w : World) w',
     _do_request (activate_request asset) w = (Returned resp, w') ->
     activate asset w = (Raised e, w')).
Proof.
  intros Hjson Hstop. split.
  - intros item w w' Hdo. unfold get_assets, coroutine.
    rewrite Hdo, Hjson. cbn [obind]. apply leave_raised, Hstop.
  - intros asset w w' Hdo. unfold activate, coroutine.
    rewrite Hdo, Hjson. cbn [obind]. apply leave_raised, Hstop.
Qed.

(** *** The URLs *)

Lemma prefix_append (a b : string) : String.prefix a (a ++ b) = true.
Proof.
  induction a as [|c a IH]; simpl; [destruct b; reflexivity|].
  destruct (ascii_dec c c) as [_|Hne]; [exact IH|contradiction].
Qed.

(** The URL of a quick search and the URL of an asset listing lie under
    [base_url] followed by [DATA_PATH], whatever the type and the id of the
    item. *)
Theorem data_urls_under_data_path filt item_types item :
  String.prefix (base_url ++ DATA_PATH)
                (url (quick_search_request base_url filt item_types)) = true /\
  String.prefix (base_url ++ DATA_PATH)
                (url (get_assets_request base_url item)) = true.
Proof. split; apply prefix_append. Qed.

(** *** Quick search and the other errors *)

(** A page request that fails with an error that is not a [BadQuery] ends
    the search with that error, as it came. The two errors of the iteration
    protocols are set apart: a [StopIteration] does not leave a coroutine,
    and a [StopAsyncIteration] does not leave [async for]. *)
Theorem quick_search_other_errors_pass
    filt item_types name page_size sort strict lim (w : World)
    pages req w1 e w2 :
  served (quick_search_request base_url filt item_types) w pages req w1 ->
  under_limit lim (length (concat pages)) ->
  _do_request req w1 = (Raised e, w2) ->
  is_bad_query e = false ->
  e <> StopIteration ->
  e <> StopAsyncIteration ->
  exists fuel0, forall fuel, fuel0 <= fuel ->
    quick_search base_url filt item_types name page_size sort strict lim
                 fuel w
    = Some (Raised e, w2).
Proof.
  intros Hserved Hlim Hdo Hkind Hstop Hend.
  eapply quick_search_fetch_raises; [exact Hserved|exact Hlim| |exact Hend].
  unfold _request_and_parse, coroutine. rewrite Hdo.
  destruct e; try reflexivity; try discriminate. contradiction.
Qed.

End MoreProperties.

(** ** More runs on the scripted service *)

Section MoreRuns.

Import Mock Examples.

Lemma _request_and_parse_only_bad_query_witness :
  _request_and_parse first_request
    (world [Raised (MissingResource (VStr "no such item"))])
  = (Raised (MissingResource (VStr "no such item")),
     {| net := []; sent := [first_request] |}).
Proof.
  refine (@_request_and_parse_only_bad_query decoder session first_request
            (world [Raised (MissingResource (VStr "no such item"))])
            _ _ _ _);
    [reflexivity|split; [reflexivity|discriminate]].
Defined.

Lemma get_assets_other_errors_pass_witness :
  get_assets base an_item (world [Raised (BadQuery (VStr "geometry error"))])
  = (Raised (BadQuery (VStr "geometry error")),
     {| net := []; sent := [get_assets_request base an_item] |}).
Proof.
  refine (@get_assets_other_errors_pass decoder session models base an_item
            (world [Raised (BadQuery (VStr "geometry error"))]) _ _ _ _ _);
    [reflexivity|reflexivity|discriminate].
Defined.

Lemma activate_other_errors_pass_witness :
  activate an_asset
    (world [Raised (APIException "TooManyRequests" (VStr "slow down"))])
  = (Raised (APIException "TooManyRequests" (VStr "slow down")),
     {| net := []; sent := [activate_request an_asset] |}).
Proof.
  refine (@activate_other_errors_pass decoder session models an_asset
            (world [Raised (APIException "TooManyRequests"
                              (VStr "slow down"))]) _ _ _ _ _);
    [reflexivity|reflexivity|discriminate].
Defined.

Lemma failed_request_fails_witness :
  exists e',
    get_assets base an_item (world [Raised (MissingResource (VStr "no detail"))])
    = (Raised e', {| net := []; sent := [get_assets_request base an_item] |}).
Proof.
  destruct (@failed_request_fails decoder session models base an_item
              an_asset first_request
              (world [Raised (MissingResource (VStr "no detail"))]))
    as [Hlist _].
  apply (Hlist (MissingResource (VStr "no detail"))). reflexivity.
Defined.

Lemma get_assets_translates_iff_witness :
  get_assets base an_item
    (world [Raised (MissingResource (VStr "no such item"))])
  = (Raised (MissingResource (VStr "no such item")),
     {| net := []; sent := [get_assets_request base an_item] |})
  <-> listing_shape "no such item" (VStr "no such item").
Proof.
  refine (@get_assets_translates_iff decoder session models base an_item
            (world [Raised (MissingResource (VStr "no such item"))])
            "no such item" _ (VStr "no such item") _).
  reflexivity.
Defined.

Lemma activate_translates_iff_witness :
  activate an_asset (world [Raised (MissingResource (VStr "no such asset"))])
  = (Raised (MissingResource (VStr "no such asset")),
     {| net := []; sent := [activate_request an_asset] |})
  <-> activation_shape "no such asset" (VStr "no such asset").
Proof.
  refine (@activate_translates_iff decoder session models an_asset
            (world [Raised (MissingResource (VStr "no such asset"))])
            "no such asset" _ (VStr "no such asset") _).
  reflexivity.
Defined.

Lemma activate_on_listing_shape_witness :
  activate an_asset (world [Raised (MissingResource (VStr "no such item"))])
  = (Raised TypeError,
     {| net := []; sent := [activate_request an_asset] |}) /\
  (forall m', ~ activation_shape "no such item" m').
Proof.
  refine (@activate_on_listing_shape decoder session models an_asset
            (world [Raised (MissingResource (VStr "no such item"))])
            "no such item" _ (VStr "no such item") _ _).
  - reflexivity.
  - exists [("general", VList [VDict [("message", VStr "no such item")]])],
           [("message", VStr "no such item")], [].
    repeat split.
Defined.

Lemma decoded_message_type_error_witness :
  _request_and_parse first_request (world [Raised (BadQuery geometry_error)])
  = (Raised TypeError, {| net := []; sent := [first_request] |}).
Proof.
  destruct (@decoded_message_type_error decoder session models base
              geometry_error
              (or_intror (or_intror (ex_intro _ _ eq_refl))))
    as [Hsearch _].
  apply Hsearch. reflexivity.
Defined.

Lemma bad_query_error_table_witness :
  @_request_and_parse wide_decoder session first_request
    (world [Raised (BadQuery (VStr "empty field"))])
  = (Raised RuntimeError, {| net := []; sent := [first_request] |}) /\
  @_request_and_parse wide_decoder session first_request
    (world [Raised (BadQuery (VStr "no errors"))])
  = (Raised IndexError, {| net := []; sent := [first_request] |}) /\
  @_request_and_parse wide_decoder session first_request
    (world [Raised (BadQuery (VStr "field list"))])
  = (Raised AttributeError, {| net := []; sent := [first_request] |}).
Proof.
  split; [|split].
  - refine (proj1 (@bad_query_error_table wide_decoder session first_request
                     (world [Raised (BadQuery (VStr "empty field"))])
                     "empty field" _ _) RuntimeError _);
      [reflexivity|].
    eapply (@bqu_field_empty wide_decoder); reflexivity.
  - refine (proj1 (@bad_query_error_table wide_decoder session first_request
                     (world [Raised (BadQuery (VStr "no errors"))])
                     "no errors" _ _) IndexError _);
      [reflexivity|].
    eapply (@bqu_errors wide_decoder); [reflexivity|reflexivity|].
    apply nfm_empty.
  - refine (proj1 (@bad_query_error_table wide_decoder session first_request
                     (world [Raised (BadQuery (VStr "field list"))])
                     "field list" _ _) AttributeError _);
      [reflexivity|].
    eapply (@bqu_field_not_object wide_decoder); reflexivity.
Defined.

Lemma _request_and_parse_translates_iff_witness :
  _request_and_parse first_request
    (world [Raised (BadQuery (VStr "geometry error"))])
  = (Raised (BadQuery (VStr "invalid coordinates")),
     {| net := []; sent := [first_request] |})
  <-> bad_query_shape "geometry error" (VStr "invalid coordinates").
Proof.
  refine (@_request_and_parse_translates_iff decoder session first_request
            (world [Raised (BadQuery (VStr "geometry error"))])
            "geometry error" _ (VStr "invalid coordinates") _).
  reflexivity.
Defined.

Lemma get_assets_body_not_object_witness :
  get_assets base an_item (world [Returned (VList [VStr "visual"])])
  = (Raised AttributeError,
     {| net := []; sent := [get_assets_request base an_item] |}).
Proof.
  refine (@get_assets_body_not_object decoder session models base an_item
            (world [Returned (VList [VStr "visual"])])
            (VList [VStr "visual"]) _ (VList [VStr "visual"]) _ _ _);
    reflexivity.
Defined.

Lemma activate_body_not_iterable_witness :
  activate an_asset (world [Returned VNone])
  = (Raised TypeError,
     {| net := []; sent := [activate_request an_asset] |}).
Proof.
  refine (@activate_body_not_iterable decoder session models an_asset
            (world [Returned VNone]) VNone _ VNone _ _ _);
    reflexivity.
Defined.

Lemma undecodable_response_raises_witness :
  @get_assets decoder TextMock.session TextMock.models base an_item
    (TextMock.world [Returned "<html>Bad Gateway</html>"])
  = (Raised (JSONDecodeError "<html>Bad Gateway</html>"),
     @Build_World TextMock.session []
       [@get_assets_request TextMock.session TextMock.models base an_item]).
Proof.
  refine (proj1 (@undecodable_response_raises decoder TextMock.session
                   TextMock.models base "<html>Bad Gateway</html>"
                   (JSONDecodeError "<html>Bad Gateway</html>") _ _)
                an_item _ _ _);
    [reflexivity|discriminate|reflexivity].
Defined.

Lemma quick_search_other_errors_pass_witness :
  exists fuel0, forall fuel, fuel0 <= fuel ->
    quick_search base filt item_types None None None None None fuel
      (world missing_second)
    = Some (Raised (MissingResource (VStr "no such item")),
            {| net := []; sent := [first_request; second_request] |}).
Proof.
  refine (@quick_search_other_errors_pass decoder session models base filt
            item_types None None None None None (world missing_second)
            [page1] second_request before_missing
            (MissingResource (VStr "no such item")) _ _ _ _ _ _ _).
  - apply served_page with (resp := page_body page1 (Some "page-2"))
                          (w1 := before_missing) (link := "page-2");
      [reflexivity|reflexivity|apply (@served_none session models)].
  - exact I.
  - reflexivity.
  - reflexivity.
  - discriminate.
  - discriminate.
Defined.

End MoreRuns.
